(** * A shallow embedding of [src/server.js]

    The file is one React component, [App], wired to a hosted backend:
    an authentication listener, an admin allow-list lookup, a live feed
    subscription with a one-time seed write, and a handler that posts an
    activity record.  The embedding keeps the structure of the source:

    - [Js]        the JavaScript primitives the component relies on
                  (truthiness, [String.prototype.trim], [includes], ...);
    - [Firestore] document values, the activity collection, queries;
    - [App]       the component state, a small state-and-exception monad
                  for the handlers, the handlers themselves line by line,
                  the render function and the event loop that drives them.

    Conventions.

    - Strings are [string]; one [ascii] stands for one UTF-16 code unit in
      the range 0..255.  A JavaScript object used as a record is a
      [gmap string _]; [undefined] is an absent key; [null] in a state
      cell is [None].
    - Whether an awaited backend call resolves or rejects, what the admins
      document holds, which identifier [doc(collection)] generates and
      which snapshots arrive are choices of the outside: they are
      arguments of the handlers and of the events.
    - A handler runs to completion before the next event (one client, no
      interleaving inside an [await]).  A function created by a render
      reads the state of that render: it takes the captured state as an
      argument, while the setters act on the live state.
    - Unmounting (the cleanup functions of the two effects) is not
      modelled. *)

From Stdlib Require Import ZArith List String Ascii Bool Lia.
From stdpp Require Import base option gmap strings list fin_maps sorting.

Local Open Scope string_scope.
Local Open Scope list_scope.

(* ===================================================================== *)
(** * JavaScript primitives *)
(* ===================================================================== *)

Module Js.

(** The code units below 256 that ECMAScript's [trim] strips: the
    WhiteSpace set (TAB, VT, FF, SP, NBSP) and the LineTerminator set
    (LF, CR). *)
Definition is_white_space (c : ascii) : bool :=
  match nat_of_ascii c with
  | 9 | 10 | 11 | 12 | 13 | 32 | 160 => true
  | _ => false
  end.

Fixpoint trimStart (s : string) : string :=
  match s with
  | EmptyString => EmptyString
  | String c s' => if is_white_space c then trimStart s' else s
  end.

Fixpoint trimEnd (s : string) : string :=
  match s with
  | EmptyString => EmptyString
  | String c s' =>
      match trimEnd s' with
      | EmptyString => if is_white_space c then EmptyString else String c EmptyString
      | r => String c r
      end
  end.

(** [s.trim()] *)
Definition trim (s : string) : string := trimEnd (trimStart s).

(** Every code unit of [s] is white space. *)
Fixpoint all_white_space (s : string) : bool :=
  match s with
  | EmptyString => true
  | String c s' => is_white_space c && all_white_space s'
  end.

(** [!x] for a value that is [null] or an object. *)
Definition is_null {A} (o : option A) : bool :=
  match o with None => true | Some _ => false end.

(** Truthiness of a string: only the empty string is falsy. *)
Definition truthy_string (s : string) : bool :=
  match s with EmptyString => false | _ => true end.

(** Truthiness of a value that is [null] or a string. *)
Definition truthy_opt (o : option string) : bool :=
  match o with None => false | Some s => truthy_string s end.

(** [s.substring(0, n)] *)
Fixpoint substring0 (n : nat) (s : string) : string :=
  match n, s with
  | S n', String c s' => String c (substring0 n' s')
  | _, _ => EmptyString
  end.

(** [s.startsWith(p)] *)
Fixpoint startsWith (p s : string) : bool :=
  match p, s with
  | EmptyString, _ => true
  | String a p', String b s' => Ascii.eqb a b && startsWith p' s'
  | String _ _, EmptyString => false
  end.

(** [s.includes(p)] on strings: [p] occurs somewhere in [s]. *)
Fixpoint string_includes (p s : string) : bool :=
  startsWith p s ||
  match s with
  | EmptyString => false
  | String _ s' => string_includes p s'
  end.

(** [String(b)] inside a template literal. *)
Definition string_of_bool (b : bool) : string :=
  if b then "true" else "false".

(** [path.split('/')] *)
Fixpoint split_slash (cur s : string) : list string :=
  match s with
  | EmptyString => [cur]
  | String c s' =>
      if Ascii.eqb c "/"%char then cur :: split_slash "" s'
      else split_slash (cur +:+ String c "") s'
  end.

(** [xs.slice(-1)[0]]: the last element, [undefined] on the empty array. *)
Definition last_segment (path : string) : option string :=
  last (split_slash "" path).

End Js.

(* ===================================================================== *)
(** * The document store *)
(* ===================================================================== *)

Module Firestore.

#[local] Set Warnings "-register-all".

(** Values a document field can hold, as far as this program looks at
    them (numbers are the integers).  [VServerTimestamp] is the sentinel
    returned by [serverTimestamp()]; it only occurs in payloads handed to
    [setDoc], where the server replaces it by its own clock. *)
Inductive FsValue : Type :=
| VNull
| VBool (b : bool)
| VInt (n : Z)
| VStr (s : string)
| VTimestamp (t : Z)
| VServerTimestamp
| VArr (l : list FsValue)
| VMap (m : list (string * FsValue)).

(** The data of one document (and also a plain JavaScript object holding
    such values): field name to value. *)
Abbreviation DocData := (gmap string FsValue).

(** A collection: document id to document data. *)
Abbreviation Collection := (gmap string DocData).

(** JavaScript truthiness of a field read; [None] is [undefined]. *)
Definition truthy (o : option FsValue) : bool :=
  match o with
  | None | Some VNull => false
  | Some (VBool b) => b
  | Some (VInt n) => negb (n =? 0)%Z
  | Some (VStr s) => Js.truthy_string s
  | Some _ => true
  end.

Inductive Direction := Asc | Desc.

(** A query as the client builds it:
    [query(collection(db, path), orderBy(f, dir)?, limit(n)?)]. *)
Record Query := mkQuery {
  q_path : string;
  q_orderBy : option (string * Direction);
  q_limit : option nat
}.

(** The shape of the identifiers that [doc(collection)] generates: twenty
    characters out of [A-Za-z0-9]. *)
Definition is_alphanumeric (c : ascii) : bool :=
  let n := nat_of_ascii c in
  ((48 <=? n) && (n <=? 57) || (65 <=? n) && (n <=? 90)
   || (97 <=? n) && (n <=? 122))%nat.

Fixpoint all_alphanumeric (s : string) : bool :=
  match s with
  | EmptyString => true
  | String c s' => is_alphanumeric c && all_alphanumeric s'
  end.

Definition is_auto_id (s : string) : bool :=
  (String.length s =? 20)%nat && all_alphanumeric s.

(** What the server stores for a payload: the [serverTimestamp()]
    sentinel of a top-level field becomes the server's time. *)
Definition resolve_value (now : Z) (v : FsValue) : FsValue :=
  match v with
  | VServerTimestamp => VTimestamp now
  | _ => v
  end.

Definition resolve (now : Z) (payload : DocData) : DocData :=
  resolve_value now <$> payload.

(** The backend's order on field values.  Values of different types are
    ordered by type: null, booleans, numbers, timestamps, server
    timestamps still pending, text, arrays, maps (the ranks left out
    belong to the types not modelled here: bytes, references, geographic
    points, vectors).  Within a type: [false] before [true], numbers and
    timestamps by value, text by code unit, arrays element by element with
    a proper prefix first, maps by their entries in key order, key before
    value. *)
Definition type_order (v : FsValue) : nat :=
  match v with
  | VNull => 0
  | VBool _ => 1
  | VInt _ => 2
  | VTimestamp _ => 3
  | VServerTimestamp => 4
  | VStr _ => 5
  | VArr _ => 9
  | VMap _ => 11
  end.

(** The first comparison decides unless it finds no difference. *)
Definition and_then (c1 c2 : comparison) : comparison :=
  match c1 with Eq => c2 | _ => c1 end.

Fixpoint list_compare {A} (cmp : A → A → comparison) (l1 l2 : list A) : comparison :=
  match l1, l2 with
  | [], [] => Eq
  | [], _ :: _ => Lt
  | _ :: _, [] => Gt
  | x :: l1', y :: l2' => and_then (cmp x y) (list_compare cmp l1' l2')
  end.

Definition entry_compare {A} (cmp : A → A → comparison) (e1 e2 : string * A) : comparison :=
  and_then (String.compare e1.1 e2.1) (cmp e1.2 e2.2).

(** The comparison of two values whose map entries are in key order
    already; [sort_fields] below puts them so. *)
Fixpoint value_compare (v1 v2 : FsValue) {struct v1} : comparison :=
  match v1, v2 with
  | VBool a, VBool b => Bool.compare a b
  | VInt a, VInt b => (a ?= b)%Z
  | VTimestamp a, VTimestamp b => (a ?= b)%Z
  | VStr a, VStr b => String.compare a b
  | VArr l1, VArr l2 => list_compare value_compare l1 l2
  | VMap m1, VMap m2 =>
      list_compare (entry_compare value_compare) m1 m2
  | _, _ => Nat.compare (type_order v1) (type_order v2)
  end.

Definition key_le (e1 e2 : string * FsValue) : Prop :=
  String.compare e1.1 e2.1 ≠ Gt.

#[export] Instance key_le_dec : RelDecision key_le.
Proof. intros e1 e2. unfold key_le. apply _. Defined.

(** A map's entries put in key order, at every depth. *)
Fixpoint sort_fields (v : FsValue) : FsValue :=
  match v with
  | VArr l => VArr (map sort_fields l)
  | VMap m => VMap (merge_sort key_le (map (λ e, (e.1, sort_fields e.2)) m))
  | _ => v
  end.

(** What an ordered query compares two documents by: the value of the
    ordering field, then the document id ([orderBy(f, dir)] carries an
    implicit [orderBy('__name__', dir)]). *)
Definition order_key (f : string) (d : string * DocData) : option FsValue * string :=
  (sort_fields <$> d.2 !! f, d.1).

Definition option_compare {A} (cmp : A → A → comparison) (o1 o2 : option A) : comparison :=
  match o1, o2 with
  | None, None => Eq
  | None, Some _ => Lt
  | Some _, None => Gt
  | Some a1, Some a2 => cmp a1 a2
  end.

Definition key_compare (k1 k2 : option FsValue * string) : comparison :=
  and_then (option_compare value_compare k1.1 k2.1) (String.compare k1.2 k2.2).

Definition doc_compare (f : string) (d1 d2 : string * DocData) : comparison :=
  key_compare (order_key f d1) (order_key f d2).

(** [d1] comes no later than [d2] in the requested order. *)
Definition doc_order (f : string) (dir : Direction) (d1 d2 : string * DocData) : Prop :=
  match dir with
  | Asc => doc_compare f d1 d2 ≠ Gt
  | Desc => doc_compare f d2 d1 ≠ Gt
  end.

#[export] Instance doc_order_dec f dir : RelDecision (doc_order f dir).
Proof. intros d1 d2. destruct dir; cbn; apply _. Defined.

(** The order of a query without [orderBy]: by document id. *)
Definition name_order (d1 d2 : string * DocData) : Prop :=
  String.compare d1.1 d2.1 ≠ Gt.

#[export] Instance name_order_dec : RelDecision name_order.
Proof. intros d1 d2. unfold name_order. apply _. Defined.

(** [orderBy(f)] also filters: a document without the field [f] is not
    returned, whatever the field holds when it is there. *)
Definition order_docs (f : string) (dir : Direction)
    (docs : list (string * DocData)) : list (string * DocData) :=
  merge_sort (doc_order f dir) (filter (λ d, is_Some (d.2 !! f)) docs).

(** Reference semantics of running a query against a collection:
    order (dropping documents that lack the ordering field), then cut
    at the limit. *)
Definition run_query (q : Query) (c : Collection) : list (string * DocData) :=
  let docs := map_to_list c in
  let ordered :=
    match q_orderBy q with
    | None => merge_sort name_order docs
    | Some (f, dir) => order_docs f dir docs
    end in
  match q_limit q with
  | None => ordered
  | Some n => take n ordered
  end.

End Firestore.

(* ===================================================================== *)
(** * The component *)
(* ===================================================================== *)

Module App.
Import Firestore.

(** ** Component state: the six [useState] cells of [App] *)

(** An entry of [globalActivities]: the object built in the snapshot
    listener, [{id, ...d.data(), timestamp}]. *)
Abbreviation Activity := (gmap string FsValue).

Record State := mkState {
  userId : option string;             (* null or a string *)
  isAuthReady : bool;
  isAdmin : bool;
  loading : bool;
  globalActivities : list Activity;
  logMessage : string
}.

(** [useState] initial values, lines 53-58. *)
Definition initial_state : State :=
  {| userId := None; isAuthReady := false; isAdmin := false;
     loading := true; globalActivities := []; logMessage := "" |}.

Record User := mkUser { uid : string }.

(** ** What a handler can do to the outside *)

Inductive Exn :=
| TypeError (msg : string)
| Error (msg : string)
| Rejected (operation : string).

Inductive Event :=
| ConsoleLog (msg : string)
| ConsoleError (msg : string) (err : option Exn)
| SignInWithCustomToken (token : string)
| SignInAnonymously
| OnAuthStateChanged
| GetDoc (path : string)
| GetDocs (q : Query)
| SetDoc (path id : string) (payload : DocData)
| OnSnapshot (q : Query).

(** The result of an awaited read, chosen by the backend. *)
Inductive Fetched (A : Type) :=
| Failed
| Resolved (a : A).
Arguments Failed {A}.
Arguments Resolved {A} a.

(** The world a handler runs in: the live component state, the shared
    activity collection on the server with the server's clock, the calls
    and console lines so far, and the bookkeeping of the two runtimes
    (which listeners are registered, the dependency value the feed effect
    last ran with). *)
Record World := mkWorld {
  ui : State;
  activities : Collection;
  server_time : Z;
  trace : list Event;
  auth_listening : bool;
  feed_listening : bool;
  feed_deps : option bool
}.

Definition set_ui (f : State → State) (w : World) : World :=
  {| ui := f (ui w); activities := activities w; server_time := server_time w;
     trace := trace w; auth_listening := auth_listening w;
     feed_listening := feed_listening w; feed_deps := feed_deps w |}.

Definition set_activities (f : Collection → Collection) (w : World) : World :=
  {| ui := ui w; activities := f (activities w); server_time := server_time w;
     trace := trace w; auth_listening := auth_listening w;
     feed_listening := feed_listening w; feed_deps := feed_deps w |}.

Definition add_event (e : Event) (w : World) : World :=
  {| ui := ui w; activities := activities w; server_time := server_time w;
     trace := trace w ++ [e]; auth_listening := auth_listening w;
     feed_listening := feed_listening w; feed_deps := feed_deps w |}.

Definition set_auth_listening (b : bool) (w : World) : World :=
  {| ui := ui w; activities := activities w; server_time := server_time w;
     trace := trace w; auth_listening := b;
     feed_listening := feed_listening w; feed_deps := feed_deps w |}.

Definition set_feed_listening (b : bool) (w : World) : World :=
  {| ui := ui w; activities := activities w; server_time := server_time w;
     trace := trace w; auth_listening := auth_listening w;
     feed_listening := b; feed_deps := feed_deps w |}.

Definition set_feed_deps (d : option bool) (w : World) : World :=
  {| ui := ui w; activities := activities w; server_time := server_time w;
     trace := trace w; auth_listening := auth_listening w;
     feed_listening := feed_listening w; feed_deps := d |}.

(** ** The handler monad: state plus exceptions *)

Inductive Completion (A : Type) :=
| Normal (a : A)
| Throw (e : Exn).
Arguments Normal {A} a.
Arguments Throw {A} e.

Definition M (A : Type) : Type := World → Completion A * World.

#[export] Instance M_ret : MRet M := λ A a w, (Normal a, w).

#[export] Instance M_bind : MBind M := λ A B f m w,
  match m w with
  | (Normal a, w') => f a w'
  | (Throw e, w') => (Throw e, w')
  end.

Definition throw {A} (e : Exn) : M A := λ w, (Throw e, w).

(** [try { body } catch (error) { handler(error) }] *)
Definition try_catch (body : M unit) (handler : Exn → M unit) : M unit := λ w,
  match body w with
  | (Normal a, w') => (Normal a, w')
  | (Throw e, w') => handler e w'
  end.

Definition emit (e : Event) : M unit := λ w, (Normal tt, add_event e w).
Definition update (f : World → World) : M unit := λ w, (Normal tt, f w).
Definition read {A} (f : World → A) : M A := λ w, (Normal (f w), w).

(** The world a handler leaves behind, and how it completed. *)
Definition exec {A} (m : M A) (w : World) : World := (m w).2.
Definition completion {A} (m : M A) (w : World) : Completion A := (m w).1.

(** The events a handler added to the trace. *)
Definition emitted {A} (m : M A) (w : World) : list Event :=
  drop (length (trace w)) (trace (exec m w)).

Fixpoint mapM {A B} (f : A → M B) (l : list A) : M (list B) :=
  match l with
  | [] => mret []
  | x :: l' => y ← f x; ys ← mapM f l'; mret (y :: ys)
  end.

(** State setters. *)
Definition setUserId (v : option string) : M unit :=
  update (set_ui (λ s, {| userId := v; isAuthReady := isAuthReady s; isAdmin := isAdmin s;
                          loading := loading s; globalActivities := globalActivities s;
                          logMessage := logMessage s |})).
Definition setIsAuthReady (v : bool) : M unit :=
  update (set_ui (λ s, {| userId := userId s; isAuthReady := v; isAdmin := isAdmin s;
                          loading := loading s; globalActivities := globalActivities s;
                          logMessage := logMessage s |})).
Definition setIsAdmin (v : bool) : M unit :=
  update (set_ui (λ s, {| userId := userId s; isAuthReady := isAuthReady s; isAdmin := v;
                          loading := loading s; globalActivities := globalActivities s;
                          logMessage := logMessage s |})).
Definition setLoading (v : bool) : M unit :=
  update (set_ui (λ s, {| userId := userId s; isAuthReady := isAuthReady s; isAdmin := isAdmin s;
                          loading := v; globalActivities := globalActivities s;
                          logMessage := logMessage s |})).
Definition setGlobalActivities (v : list Activity) : M unit :=
  update (set_ui (λ s, {| userId := userId s; isAuthReady := isAuthReady s; isAdmin := isAdmin s;
                          loading := loading s; globalActivities := v;
                          logMessage := logMessage s |})).
Definition setLogMessage (v : string) : M unit :=
  update (set_ui (λ s, {| userId := userId s; isAuthReady := isAuthReady s; isAdmin := isAdmin s;
                          loading := loading s; globalActivities := globalActivities s;
                          logMessage := v |})).

Definition console_log (msg : string) : M unit := emit (ConsoleLog msg).
Definition console_error (msg : string) (err : option Exn) : M unit :=
  emit (ConsoleError msg err).

(** ** Backend calls

    Whether an awaited call resolves or rejects is the backend's choice;
    each call takes that choice as an argument and records itself in the
    trace. *)

Definition signInWithCustomToken (token : string) (ok : bool) : M unit :=
  emit (SignInWithCustomToken token);;
  if ok then mret tt else throw (Rejected "signInWithCustomToken").

Definition signInAnonymously (ok : bool) : M unit :=
  emit SignInAnonymously;;
  if ok then mret tt else throw (Rejected "signInAnonymously").

(** [getDoc(doc(db, path))]: [Resolved None] is a snapshot whose
    [exists()] is false. *)
Definition getDoc (path : string) (r : Fetched (option DocData)) : M (option DocData) :=
  emit (GetDoc path);;
  match r with
  | Resolved snap => mret snap
  | Failed => throw (Rejected "getDoc")
  end.

(** [getDocs(q)] against the activity collection. *)
Definition getDocs (q : Query) (ok : bool) : M (list (string * DocData)) :=
  emit (GetDocs q);;
  if ok then read (λ w, run_query q (activities w)) else throw (Rejected "getDocs").

(** [setDoc(doc(db, path, id), payload)]: creates or replaces the whole
    document; the server fills in its time for [serverTimestamp()]. *)
Definition setDoc (path id : string) (payload : DocData) (ok : bool) : M unit :=
  emit (SetDoc path id payload);;
  if ok
  then update (λ w, set_activities (insert id (resolve (server_time w) payload)) w)
  else throw (Rejected "setDoc").

(** [adminList.includes(x)] for a string [x]: array membership, substring
    search on a string, and a TypeError on anything else (no such method). *)
Definition includes (adminList : FsValue) (x : string) : M bool :=
  match adminList with
  | VArr l => mret (existsb (λ v, match v with VStr s => String.eqb s x | _ => false end) l)
  | VStr s => mret (Js.string_includes x s)
  | _ => throw (TypeError "adminList.includes is not a function")
  end.

(** [v || []] *)
Definition or_empty_array (o : option FsValue) : FsValue :=
  match o with
  | Some v => if truthy o then v else VArr []
  | None => VArr []
  end.

Inductive Service := FirebaseApp | FirestoreDb | AuthService.

Section Component.

(** Globals provided by the environment, lines 28-30: the application id,
    the auth token ([None] is [null]) and the number of keys of the parsed
    [__firebase_config]; and the locale's time formatting. *)
Variable appId : string.
Variable initialAuthToken : option string.
Variable firebaseConfig_keys : nat.
Variable toLocaleTimeString : Z → string.

(** Lines 33-35. *)
Definition app : option Service :=
  match firebaseConfig_keys with 0 => None | S _ => Some FirebaseApp end.
Definition db : option Service :=
  match app with Some _ => Some FirestoreDb | None => None end.
Definition auth : option Service :=
  match app with Some _ => Some AuthService | None => None end.

(** Lines 39 and 41. *)
Definition ADMINS_DOC_PATH : string :=
  "artifacts/" +:+ appId +:+ "/public/settings/admins".
Definition ACTIVITIES_COLLECTION_PATH : string :=
  "artifacts/" +:+ appId +:+ "/public/data/app_activities".

(** Lines 44-48. *)
Definition initialActivity : DocData :=
  <["content" := VStr "Initial activity logged to public feed."]>
  (<["timestamp" := VServerTimestamp]>
  (<["userId" := VStr "SYSTEM"]> ∅)).

(** *** 2. Admin status check, lines 94-116 *)

Definition checkAdminStatus (admins : Fetched (option DocData))
    (currentUserId : string) : M unit :=
  if Js.is_null db || negb (Js.truthy_string currentUserId)
  then mret tt
  else
    try_catch
      (docSnap ← getDoc ADMINS_DOC_PATH admins;
       match docSnap with
       | Some data =>
           let adminList := or_empty_array (data !! "uids") in
           isUserAdmin ← includes adminList currentUserId;
           setIsAdmin isUserAdmin;;
           console_log ("User " +:+ currentUserId +:+ " is admin: "
                        +:+ Js.string_of_bool isUserAdmin)
       | None =>
           console_log "Admins document does not exist. No one is admin.";;
           setIsAdmin false
       end)
      (λ error,
         console_error "Error checking admin status:" (Some error);;
         setIsAdmin false).

(** *** 1. Authentication, lines 61-91 *)

(** The [catch] block of the sign-in attempt, lines 81-84. *)
Definition authentication_failed (error : Exn) : M unit :=
  console_error "Authentication failed:" (Some error);;
  setUserId (Some "anonymous").

(** The listener passed to [onAuthStateChanged], lines 68-88. *)
Definition authStateChanged (user : option User) (signIn_ok : bool)
    (admins : Fetched (option DocData)) : M unit :=
  match user with
  | Some u =>
      setUserId (Some (uid u));;
      checkAdminStatus admins (uid u)
  | None =>
      try_catch
        (match initialAuthToken with
         | Some token =>
             if Js.truthy_string token
             then signInWithCustomToken token signIn_ok
             else signInAnonymously signIn_ok
         | None => signInAnonymously signIn_ok
         end)
        authentication_failed
  end;;
  setIsAuthReady true;;
  setLoading false.

(** The effect itself, run once on mount. *)
Definition authEffect : M unit :=
  match auth with
  | None =>
      console_error "Firebase Auth not initialized. Check __firebase_config." None;;
      setLoading false
  | Some _ =>
      emit OnAuthStateChanged;;
      update (set_auth_listening true)
  end.

(** *** 3. Live feed, lines 119-153 *)

(** [query(collection(db, PATH), limit(1))], line 125. *)
Definition seed_query : Query :=
  {| q_path := ACTIVITIES_COLLECTION_PATH; q_orderBy := None; q_limit := Some 1 |}.

(** [query(collection(db, PATH), orderBy('timestamp','desc'), limit(100))],
    line 139. *)
Definition feed_query : Query :=
  {| q_path := ACTIVITIES_COLLECTION_PATH;
     q_orderBy := Some ("timestamp", Desc);
     q_limit := Some 100 |}.

(** Lines 123-134. *)
Definition logInitialActivity (getDocs_ok setDoc_ok : bool) : M unit :=
  try_catch
    (snapshot ← getDocs seed_query getDocs_ok;
     match snapshot with
     | [] =>
         setDoc ACTIVITIES_COLLECTION_PATH "system-init" initialActivity setDoc_ok;;
         console_log "Logged initial system activity."
     | _ :: _ => mret tt
     end)
    (λ error, console_error "Error logging initial activity:" (Some error)).

(** [d.data().timestamp?.toDate()?.toLocaleTimeString() || 'N/A']: the
    optional chain stops on [undefined] and [null] only. *)
Definition format_timestamp (o : option FsValue) : M string :=
  match o with
  | None | Some VNull => mret "N/A"
  | Some (VTimestamp t) =>
      let s := toLocaleTimeString t in
      mret (if Js.truthy_string s then s else "N/A")
  | Some _ => throw (TypeError "toDate is not a function")
  end.

(** [{ id: d.id, ...d.data(), timestamp: ... }], lines 142-146. *)
Definition to_activity (d : string * DocData) : M Activity :=
  ts ← format_timestamp (d.2 !! "timestamp");
  mret (<["timestamp" := VStr ts]> (d.2 ∪ {["id" := VStr d.1]})).

(** The snapshot listener, lines 141-147. *)
Definition snapshotReceived (docs : list (string * DocData)) : M unit :=
  acts ← mapM to_activity docs;
  setGlobalActivities acts.

(** The error callback of the subscription, lines 148-150. *)
Definition snapshotFailed (error : Exn) : M unit :=
  console_error "Error fetching global activities:" (Some error).

(** The effect, run with the render's [isAuthReady].  The source starts
    [logInitialActivity()] without awaiting it; here it runs to completion
    before the subscription is made, as every handler does. *)
Definition feedEffect (cap : State) (getDocs_ok setDoc_ok : bool) : M unit :=
  if Js.is_null db || negb (isAuthReady cap)
  then mret tt
  else
    logInitialActivity getDocs_ok setDoc_ok;;
    emit (OnSnapshot feed_query);;
    update (set_feed_listening true).

(** *** Posting an activity, lines 156-174

    The function is a closure of one render: [cap] holds the values of
    [userId], [logMessage] and [isAdmin] it captured.  Setters act on the
    live state and do not change [cap].  [autoId] is the identifier that
    [doc(collection(...))] generates. *)

(** The [catch] block, lines 170-173. *)
Definition logging_failed (error : Exn) : M unit :=
  console_error "Error logging user activity:" (Some error);;
  setLogMessage "Error logging activity.".

(** A state cell holding [null] or a string, as a field value. *)
Definition value_of (o : option string) : FsValue :=
  match o with Some s => VStr s | None => VNull end.

(** The record handed to [setDoc], lines 161-168. *)
Definition activity_payload (cap : State) : DocData :=
  <["content" := VStr (Js.trim (logMessage cap))]>
  (<["timestamp" := VServerTimestamp]>
  (<["userId" := value_of (userId cap)]>
  (<["is_admin" := VBool (isAdmin cap)]>
  (<["app_version" := VStr "1.0"]> ∅)))).

Definition logUserActivity (cap : State) (autoId : string) (setDoc_ok : bool) : M unit :=
  if Js.is_null db
     || negb (Js.truthy_opt (userId cap))
     || negb (Js.truthy_string (Js.trim (logMessage cap)))
  then mret tt
  else
    setLogMessage "Logging...";;
    try_catch
      (setDoc ACTIVITIES_COLLECTION_PATH autoId (activity_payload cap) setDoc_ok;;
       setLogMessage "")
      logging_failed.

(** *** Rendering, lines 176-279 *)

(** What the page shows for a [{value}] child: text for a string or a
    number, nothing for [null], [undefined] and booleans, the children of
    an array one after the other; any other object (a map, a timestamp)
    is refused with an error, which takes the whole page down. *)
Inductive TextNode :=
| Text (s : string)
| Number (n : Z).

Fixpoint react_child (v : FsValue) : option (list TextNode) :=
  match v with
  | VNull | VBool _ => Some []
  | VInt n => Some [Number n]
  | VStr s => Some [Text s]
  | VArr l =>
      (fix children (l : list FsValue) : option (list TextNode) :=
         match l with
         | [] => Some []
         | x :: l' =>
             match react_child x, children l' with
             | Some a, Some b => Some (a ++ b)
             | _, _ => None
             end
         end) l
  | VTimestamp _ | VServerTimestamp | VMap _ => None
  end.

Definition react_children (o : option FsValue) : option (list TextNode) :=
  match o with
  | None => Some []
  | Some v => react_child v
  end.

(** The element built for one entry, lines 234-251: the expressions in
    braces, evaluated when the list is mapped.  The badge follows the
    truthiness of [is_admin]; [userId.substring(0, 10)] needs a string. *)
Record RowElement := mkRowElement {
  el_content : option FsValue;
  el_badge : string;
  el_user : string;
  el_time : option FsValue
}.

(** The same entry on the page. *)
Record Row := mkRow {
  row_content : list TextNode;
  row_badge : string;
  row_user : string;
  row_time : list TextNode
}.

Inductive Dashboard :=
| UserDashboard (input_value : string) (button_disabled : bool)
| AdminDashboard (collection_name : option string) (rows : list Row).

Inductive View :=
| Connecting
| Page (user_label role_label : string) (dashboard : Dashboard).

Definition row_element (a : Activity) : Completion RowElement :=
  match a !! "userId" with
  | Some (VStr u) =>
      Normal {| el_content := a !! "content";
                el_badge := if truthy (a !! "is_admin") then "ADMIN" else "USER";
                el_user := "User ID: " +:+ Js.substring0 10 u +:+ "...";
                el_time := a !! "timestamp" |}
  | _ => Throw (TypeError "activity.userId.substring is not a function")
  end.

(** Putting an element on the page: its children must be displayable. *)
Definition mount_row (e : RowElement) : Completion Row :=
  match react_children (el_content e), react_children (el_time e) with
  | Some c, Some t =>
      Normal {| row_content := c; row_badge := el_badge e;
                row_user := el_user e; row_time := t |}
  | _, _ => Throw (Error "Objects are not valid as a React child")
  end.

(** [xs.map(f)] for an [f] that may throw. *)
Fixpoint map_throwing {A B} (f : A → Completion B) (l : list A) : Completion (list B) :=
  match l with
  | [] => Normal []
  | a :: l' =>
      match f a with
      | Normal r =>
          match map_throwing f l' with
          | Normal rs => Normal (r :: rs)
          | Throw e => Throw e
          end
      | Throw e => Throw e
      end
  end.

(** One entry from the list to the page. *)
Definition render_row (a : Activity) : Completion Row :=
  match row_element a with
  | Normal e => mount_row e
  | Throw e => Throw e
  end.

(** [globalActivities.map(...)], lines 233-252: all the elements are built
    first, then they are put on the page. *)
Definition render_rows (l : list Activity) : Completion (list Row) :=
  match map_throwing row_element l with
  | Normal es => map_throwing mount_row es
  | Throw e => Throw e
  end.

(** The button's [disabled] attribute, line 200. *)
Definition button_disabled (s : State) : bool :=
  negb (Js.truthy_string (Js.trim (logMessage s)))
  || String.eqb (logMessage s) "Logging...".

(** The role label, line 273. *)
Definition role_label (s : State) : string :=
  if isAdmin s then "Administrator" else "Standard User".

(** The user id label, line 272: [userId || 'N/A']. *)
Definition user_label (s : State) : string :=
  match userId s with
  | Some u => if Js.truthy_string u then u else "N/A"
  | None => "N/A"
  end.

Definition render (s : State) : Completion View :=
  if loading s then Normal Connecting
  else if isAdmin s then
    match render_rows (globalActivities s) with
    | Normal rows =>
        Normal (Page (user_label s) (role_label s)
                  (AdminDashboard (Js.last_segment ACTIVITIES_COLLECTION_PATH) rows))
    | Throw e => Throw e
    end
  else
    Normal (Page (user_label s) (role_label s)
              (UserDashboard (logMessage s) (button_disabled s))).

(** ** The event loop

    What can happen to a mounted component, with the choices the outside
    makes.  Each handler runs to completion before the next event, and a
    handler created by a render sees the state of that render. *)
Inductive Action :=
| Mount (getDocs_ok setDoc_ok : bool)
| AuthStateChanged (user : option User) (signIn_ok : bool)
    (admins : Fetched (option DocData))
| FeedEffect (getDocs_ok setDoc_ok : bool)
| SnapshotReceived (docs : list (string * DocData))
| Change (value : string)
| Click (autoId : string) (setDoc_ok : bool).

(** The user dashboard is on screen. *)
Definition user_dashboard_shown (s : State) : bool :=
  negb (loading s) && negb (isAdmin s).

(** Whether the runtime can deliver the action now. *)
Definition enabled (a : Action) (w : World) : bool :=
  match a with
  | Mount _ _ => Js.is_null (feed_deps w)
  | AuthStateChanged _ _ _ => auth_listening w
  | FeedEffect _ _ =>
      match feed_deps w with
      | Some d => negb (Bool.eqb d (isAuthReady (ui w)))
      | None => false
      end
  | SnapshotReceived _ => feed_listening w
  | Change _ => user_dashboard_shown (ui w)
  | Click autoId _ =>
      user_dashboard_shown (ui w) && negb (button_disabled (ui w))
      && is_auto_id autoId
  end.

Definition handler (a : Action) (w : World) : M unit :=
  match a with
  | Mount ok1 ok2 =>
      authEffect;;
      feedEffect (ui w) ok1 ok2;;
      update (set_feed_deps (Some (isAuthReady (ui w))))
  | AuthStateChanged user ok admins => authStateChanged user ok admins
  | FeedEffect ok1 ok2 =>
      feedEffect (ui w) ok1 ok2;;
      update (set_feed_deps (Some (isAuthReady (ui w))))
  | SnapshotReceived docs => snapshotReceived docs
  | Change value => setLogMessage value
  | Click autoId ok => logUserActivity (ui w) autoId ok
  end.

Definition step (a : Action) (w : World) : option World :=
  if enabled a w then Some (exec (handler a w) w) else None.

Fixpoint run (l : list Action) (w : World) : option World :=
  match l with
  | [] => Some w
  | a :: l' =>
      match step a w with
      | Some w' => run l' w'
      | None => None
      end
  end.

(** A freshly created component over a given server state. *)
Definition initial_world (c : Collection) (now : Z) : World :=
  {| ui := initial_state; activities := c; server_time := now; trace := [];
     auth_listening := false; feed_listening := false; feed_deps := None |}.

End Component.

End App.

(* ===================================================================== *)
(** * Specification vocabulary

    Predicates and observations the properties below are stated with,
    and the concrete worlds they are tried on. *)
(* ===================================================================== *)

Import Firestore App.

#[local] Set Warnings "-clear-no-such-hyp".

(** The guard of [logUserActivity], line 157. *)
Definition logUserActivity_guard (keys : nat) (cap : State) : bool :=
  Js.is_null (db keys)
  || negb (Js.truthy_opt (userId cap))
  || negb (Js.truthy_string (Js.trim (logMessage cap))).

(** The admin-list record of the data model: the [uids] field, when the
    record has one, holds a collection of identifiers. *)
Definition admin_list_record (data : DocData) : Prop :=
  match data !! "uids" with
  | None | Some (VArr _) => True
  | Some _ => False
  end.

(** The collection held by [uids]; empty when the field is absent. *)
Definition uids (data : DocData) : list FsValue :=
  match data !! "uids" with
  | Some (VArr l) => l
  | _ => []
  end.

(** What a check that is not skipped sets [isAdmin] to. *)
Definition admin_verdict (admins : Fetched (option DocData)) (u : string) : bool :=
  match admins with
  | Resolved (Some data) =>
      match or_empty_array (data !! "uids") with
      | VArr l => existsb (λ v, match v with VStr s => String.eqb s u | _ => false end) l
      | VStr s => Js.string_includes u s
      | _ => false
      end
  | _ => false
  end.

(** The two sign-in calls. *)
Definition is_sign_in (e : Event) : bool :=
  match e with
  | SignInWithCustomToken _ | SignInAnonymously => true
  | _ => false
  end.

(** The sign-in calls among some events, in order. *)
Definition sign_in_calls (tr : list Event) : list Event :=
  List.filter is_sign_in tr.

(** A write to the seed document, [doc(db, PATH, 'system-init')]. *)
Definition is_seed_write (e : Event) : bool :=
  match e with
  | SetDoc _ id _ => String.eqb id "system-init"
  | _ => false
  end.

(** How many writes to the seed document some events contain. *)
Definition seed_writes (tr : list Event) : nat :=
  length (List.filter is_seed_write tr).

(** The world after [logInitialActivity], by cases on the probe, the
    collection and the write. *)
Definition after_logInitialActivity appId (getDocs_ok setDoc_ok : bool) (w : World) : World :=
  let path := ACTIVITIES_COLLECTION_PATH appId in
  let w1 := add_event (GetDocs (seed_query appId)) w in
  if negb getDocs_ok then
    add_event (ConsoleError "Error logging initial activity:" (Some (Rejected "getDocs"))) w1
  else if bool_decide (activities w = ∅) then
    let w2 := add_event (SetDoc path "system-init" initialActivity) w1 in
    if setDoc_ok then
      add_event (ConsoleLog "Logged initial system activity.")
        (set_activities (insert "system-init" (resolve (server_time w) initialActivity)) w2)
    else
      add_event (ConsoleError "Error logging initial activity:" (Some (Rejected "setDoc"))) w2
  else w1.

(** A timestamp field the listener can format: absent, null (a write
    whose server time is still pending) or a timestamp. *)
Definition timestamp_ok (o : option FsValue) : Prop :=
  match o with
  | None | Some VNull | Some (VTimestamp _) => True
  | Some _ => False
  end.

(** The text shown for such a field. *)
Definition shown_time (toLocaleTimeString : Z → string) (o : option FsValue) : string :=
  match o with
  | Some (VTimestamp t) =>
      if Js.truthy_string (toLocaleTimeString t) then toLocaleTimeString t else "N/A"
  | _ => "N/A"
  end.

(** The list entry made from one document of a snapshot. *)
Definition view_of (toLocaleTimeString : Z → string) (d : string * DocData) : Activity :=
  <["timestamp" := VStr (shown_time toLocaleTimeString (d.2 !! "timestamp"))]>
    (d.2 ∪ {["id" := VStr d.1]}).

(** Any document write. *)
Definition is_set_doc (e : Event) : bool :=
  match e with SetDoc _ _ _ => true | _ => false end.

(** The runtime bookkeeping and the server are as before. *)
Definition same_runtime (w w' : World) : Prop :=
  server_time w' = server_time w ∧ auth_listening w' = auth_listening w ∧
  feed_listening w' = feed_listening w ∧ feed_deps w' = feed_deps w.

(** How many seed writes a component can still make: one, until the feed
    effect has run for a render with [isAuthReady] true. *)
Definition seed_budget (w : World) : nat :=
  match feed_deps w with
  | Some true => if isAuthReady (ui w) then 0 else 1
  | _ => 1
  end.

(** The two events that run the feed effect. *)
Definition is_effect (a : Action) : Prop :=
  match a with Mount _ _ | FeedEffect _ _ => True | _ => False end.

(** The identifier generated for a user-action write names no existing
    document. *)
Definition fresh_for (a : Action) (w : World) : Prop :=
  match a with
  | Click autoId _ => activities w !! autoId = None
  | _ => True
  end.

(** The generated identifiers are fresh all along a run. *)
Fixpoint fresh_run appId token keys f (acts : list Action) (w : World) : Prop :=
  match acts with
  | [] => True
  | a :: acts' =>
      fresh_for a w ∧
      match step appId token keys f a w with
      | Some w' => fresh_run appId token keys f acts' w'
      | None => True
      end
  end.

(** No user ever signs in during these events. *)
Definition no_user_signs_in (acts : list Action) : Prop :=
  ∀ u ok admins, AuthStateChanged (Some u) ok admins ∉ acts.

(** The activity record of the data model, as a payload handed to
    [setDoc]: text content, the server-time sentinel, a text user id, a
    boolean admin flag and a text application version. *)
Definition has_activity_fields (d : DocData) : Prop :=
  (∃ s, d !! "content" = Some (VStr s)) ∧
  d !! "timestamp" = Some VServerTimestamp ∧
  (∃ s, d !! "userId" = Some (VStr s)) ∧
  (∃ b, d !! "is_admin" = Some (VBool b)) ∧
  (∃ s, d !! "app_version" = Some (VStr s)).

(** A render in which authentication is ready. *)
Definition ready_state : State :=
  {| userId := Some "u1"; isAuthReady := true; isAdmin := false;
     loading := false; globalActivities := []; logMessage := "" |}.

(** Nothing but the status string differs between two states. *)
Definition only_status_changed (s s' : State) : Prop :=
  userId s' = userId s ∧ isAuthReady s' = isAuthReady s ∧
  isAdmin s' = isAdmin s ∧ loading s' = loading s ∧
  globalActivities s' = globalActivities s.

(** Concrete inputs: a locale's time format, an admins document, a render
    with a message typed in, a collection with one earlier record, and a
    snapshot of two records. *)
Definition clock : Z → string := λ _, "12:00:00".

Definition admins_example : DocData :=
  <["uids" := VArr [VStr "alice"; VStr "bob"]]> ∅.

Definition posting_state : State :=
  {| userId := Some "u1"; isAuthReady := true; isAdmin := false;
     loading := false; globalActivities := []; logMessage := " hello " |}.

Definition old_record : DocData :=
  <["content" := VStr "earlier"]> (<["timestamp" := VTimestamp 3]>
  (<["userId" := VStr "u0"]> ∅)).

Definition posting_world : World :=
  {| ui := posting_state; activities := {["old" := old_record]}; server_time := 7;
     trace := []; auth_listening := true; feed_listening := true;
     feed_deps := Some true |}.

Definition snapshot_example : list (string * DocData) :=
  [("b", <["content" := VStr "second"]> (<["timestamp" := VTimestamp 9]>
          (<["userId" := VStr "u2"]> ∅)));
   ("old", old_record)].

(** What makes a three-way comparison an order, stated at its first
    argument so that it can be proved by induction on a value. *)
Definition lawful_at {A} (cmp : A → A → comparison) (a : A) : Prop :=
  (∀ b, cmp a b = Eq → a = b) ∧
  (∀ b, cmp b a = CompOpp (cmp a b)) ∧
  (∀ b c, cmp a b = Lt → cmp b c ≠ Gt → cmp a c = Lt).

(** An admin's page with the feed subscribed and nothing on display yet,
    and a collection in which one record's timestamp is text. *)
Definition admin_world : World :=
  {| ui := {| userId := Some "u1"; isAuthReady := true; isAdmin := true;
              loading := false; globalActivities := []; logMessage := "" |};
     activities := ∅; server_time := 7;
     trace := []; auth_listening := true; feed_listening := true;
     feed_deps := Some true |}.

Definition imported_record : DocData :=
  <["content" := VStr "imported"]> (<["timestamp" := VStr "yesterday"]>
  (<["userId" := VStr "u3"]> ∅)).

Definition mixed_collection : Collection :=
  <["old" := old_record]> {["x" := imported_record]}.

(** ** Vocabulary of the further properties *)

(** How many times the listener fires with no user among some events. *)
Fixpoint signed_out_firings (acts : list Action) : nat :=
  match acts with
  | [] => 0
  | AuthStateChanged None _ _ :: acts' => S (signed_out_firings acts')
  | _ :: acts' => signed_out_firings acts'
  end.

(** A console line, as opposed to a call to the backend. *)
Definition is_console (e : Event) : bool :=
  match e with
  | ConsoleLog _ | ConsoleError _ _ => true
  | _ => false
  end.

(** [timestamp_ok], computed. *)
Definition timestamp_okb (o : option FsValue) : bool :=
  match o with
  | None | Some VNull | Some (VTimestamp _) => true
  | Some _ => false
  end.

(** Every record of the snapshot has a timestamp the listener can format. *)
Definition good_snapshot (docs : list (string * DocData)) : bool :=
  forallb (λ d, timestamp_okb (d.2 !! "timestamp")) docs.

(** The list on display after a series of snapshots: that of the last
    snapshot the listener could format, the list before when there is none. *)
Definition shown_after (f : Z → string) (snaps : list (list (string * DocData)))
    (before : list Activity) : list Activity :=
  fold_left (λ cur docs, if good_snapshot docs then view_of f <$> docs else cur)
    snaps before.

(** The listener run on each snapshot in turn; a snapshot it throws on is
    an uncaught error of that delivery and the next one is still
    delivered. *)
Definition deliver (f : Z → string) (snaps : list (list (string * DocData)))
    (w : World) : World :=
  fold_left (λ w docs, exec (snapshotReceived f docs) w) snaps w.

(** The entry has a text [userId]. *)
Definition has_text_userId (a : Activity) : bool :=
  match a !! "userId" with
  | Some (VStr _) => true
  | _ => false
  end.

(** The string has no ['/']. *)
Fixpoint no_slash (s : string) : bool :=
  match s with
  | EmptyString => true
  | String c s' => negb (Ascii.eqb c "/"%char) && no_slash s'
  end.

(** The component without a backend: nothing is registered, nobody is
    signed in. *)
Definition unconfigured (w : World) : Prop :=
  auth_listening w = false ∧ feed_listening w = false ∧
  isAuthReady (ui w) = false ∧ userId (ui w) = None ∧ isAdmin (ui w) = false.

(** The entry's [content] and [timestamp] are values the page can show. *)
Definition displayable (a : Activity) : bool :=
  match react_children (a !! "content"), react_children (a !! "timestamp") with
  | Some _, Some _ => true
  | _, _ => false
  end.

(** A timestamp field holding a time before [now], or a value of a type
    the backend orders below timestamps (null, a boolean, a number). *)
Definition stamped_before (now : Z) (v : FsValue) : bool :=
  match v with
  | VNull | VBool _ | VInt _ => true
  | VTimestamp t => (t <? now)%Z
  | _ => false
  end.

(** A value of a type the backend orders above every timestamp. *)
Definition above_timestamps (v : FsValue) : bool :=
  match v with
  | VServerTimestamp | VStr _ | VArr _ | VMap _ => true
  | _ => false
  end.

(** How many documents of a collection have the field. *)
Definition with_field (f : string) (c : Collection) : nat :=
  length (filter (λ d : string * DocData, is_Some (d.2 !! f)) (map_to_list c)).

(** Neither of the events is a firing of the auth listener. *)
Definition no_auth_event (acts : list Action) : Prop :=
  ∀ user ok admins, AuthStateChanged user ok admins ∉ acts.

(** More concrete inputs: admins documents whose [uids] is a map and a
    string, and a snapshot with a record whose timestamp is text. *)
Definition admins_map_example : DocData :=
  <["uids" := VMap [("alice", VBool true)]]> ∅.

Definition admins_text_example : DocData :=
  <["uids" := VStr "alice,bob"]> ∅.

Definition unreadable_snapshot : list (string * DocData) :=
  [("old", old_record);
   ("x", <["content" := VStr "imported"]> (<["timestamp" := VStr "yesterday"]>
          (<["userId" := VStr "u3"]> ∅)))].

(* ===================================================================== *)
(** * Properties *)
(* ===================================================================== *)

(** Evaluates a handler applied to a world as far as the monad goes. *)
Ltac run_handler :=
  unfold emitted, exec, completion;
  repeat progress
    (unfold authentication_failed, logging_failed,
       signInWithCustomToken, signInAnonymously, getDoc, getDocs, setDoc,
       setUserId, setIsAuthReady, setIsAdmin, setLoading, setGlobalActivities,
       setLogMessage, console_log, console_error;
     unfold try_catch, emit, update, read, throw, mbind, mret, M_bind, M_ret;
     cbn [add_event set_ui set_activities set_auth_listening
          set_feed_listening set_feed_deps includes
          ui activities server_time trace auth_listening feed_listening feed_deps
          userId isAuthReady isAdmin loading globalActivities logMessage
          fst snd negb orb andb Js.is_null Js.truthy_string Js.truthy_opt]);
  rewrite <- ?app_assoc, ?drop_app_length, ?drop_all;
  cbn [app].

(** ** Strings *)

Lemma trimStart_empty_iff s :
  Js.trimStart s = "" ↔ Js.all_white_space s = true.
Proof.
  induction s as [|c s IH]; cbn; [done|].
  destruct (Js.is_white_space c); cbn; [exact IH|done].
Qed.

Lemma trimEnd_empty_iff s :
  Js.trimEnd s = "" ↔ Js.all_white_space s = true.
Proof.
  induction s as [|c s IH]; cbn; [done|].
  destruct (Js.trimEnd s) eqn:E.
  - destruct (Js.is_white_space c); cbn; [|done].
    split; [intros _; by apply IH|done].
  - split; [done|]. intros [_ H]%andb_true_iff. apply IH in H. done.
Qed.

Lemma trimStart_all_white_space s :
  Js.all_white_space (Js.trimStart s) = Js.all_white_space s.
Proof.
  induction s as [|c s IH]; cbn; [done|].
  destruct (Js.is_white_space c) eqn:E; cbn; [done|by rewrite E].
Qed.

(** [trim] returns the empty string exactly on the strings made of white
    space only (the empty string among them). *)
Lemma trim_empty_iff s :
  Js.trim s = "" ↔ Js.all_white_space s = true.
Proof.
  unfold Js.trim. by rewrite trimEnd_empty_iff, trimStart_all_white_space.
Qed.

Lemma truthy_string_false s : Js.truthy_string s = false ↔ s = "".
Proof. by destruct s. Qed.

Lemma truthy_string_true s : Js.truthy_string s = true ↔ s ≠ "".
Proof. by destruct s. Qed.

(** ** Service handles *)

Lemma db_Some keys : keys ≠ 0 → db keys = Some FirestoreDb.
Proof. by destruct keys. Qed.

Lemma db_None keys : db keys = None ↔ keys = 0.
Proof. by destruct keys. Qed.

Lemma auth_None keys : auth keys = None ↔ db keys = None.
Proof. by destruct keys. Qed.

(** ** Posting an activity *)

Lemma logUserActivity_skip appId keys cap autoId ok :
  logUserActivity_guard keys cap = true →
  logUserActivity appId keys cap autoId ok = mret tt.
Proof. unfold logUserActivity, logUserActivity_guard. by intros ->. Qed.

Lemma logUserActivity_body appId keys cap autoId ok :
  logUserActivity_guard keys cap = false →
  logUserActivity appId keys cap autoId ok =
    (setLogMessage "Logging...";;
     try_catch
       (setDoc (ACTIVITIES_COLLECTION_PATH appId) autoId (activity_payload cap) ok;;
        setLogMessage "")
       logging_failed).
Proof. unfold logUserActivity, logUserActivity_guard. by intros ->. Qed.

Lemma guard_false_iff keys cap :
  logUserActivity_guard keys cap = false ↔
  keys ≠ 0 ∧ (∃ u, userId cap = Some u ∧ u ≠ "") ∧ Js.trim (logMessage cap) ≠ "".
Proof.
  unfold logUserActivity_guard. rewrite !orb_false_iff, !negb_false_iff.
  rewrite truthy_string_true. split.
  - intros [[Hdb Hu] Hm]. split_and!; [|..|done].
    + intros ->. done.
    + destruct (userId cap) as [u|]; [|done]. exists u. split; [done|].
      by apply truthy_string_true.
  - intros (Hk & (u & -> & Hu) & Hm). split_and!; [|..|done].
    + by destruct keys.
    + by apply truthy_string_true.
Qed.

(** C8.  When the database handle is null, or the user id is null, or the
    message trims to the empty string, [logUserActivity] returns at once:
    it completes normally and the world it leaves is the world it found,
    so no document is written, no call is made and no state cell (the
    status string included) changes. *)
Theorem logUserActivity_guarded_noop appId keys cap autoId ok w :
  db keys = None ∨ userId cap = None ∨ Js.trim (logMessage cap) = "" →
  logUserActivity appId keys cap autoId ok w = (Normal tt, w).
Proof.
  intros H. rewrite logUserActivity_skip; [done|].
  unfold logUserActivity_guard.
  destruct H as [ -> | [ -> | -> ] ]; cbn; [done|by rewrite orb_true_r..].
Qed.

(** The five fields of the record a user action writes. *)
Lemma activity_payload_lookup cap :
  activity_payload cap !! "content" = Some (VStr (Js.trim (logMessage cap))) ∧
  activity_payload cap !! "timestamp" = Some VServerTimestamp ∧
  activity_payload cap !! "userId" = Some (value_of (userId cap)) ∧
  activity_payload cap !! "is_admin" = Some (VBool (isAdmin cap)) ∧
  activity_payload cap !! "app_version" = Some (VStr "1.0").
Proof. unfold activity_payload. split_and!; by simplify_map_eq. Qed.

Lemma activity_payload_dom cap :
  dom (activity_payload cap)
  = ({["content"; "timestamp"; "userId"; "is_admin"; "app_version"]} : gset string).
Proof. unfold activity_payload. rewrite !dom_insert_L, dom_empty_L. set_solver. Qed.

Lemma resolve_lookup now payload k :
  resolve now payload !! k = resolve_value now <$> payload !! k.
Proof. unfold resolve. apply lookup_fmap. Qed.

(** C9.  When the guard lets the call through and the write succeeds, the
    call is: set the status to 'Logging...', write the record built from
    the values the closure captured, reset the status.  The record's
    content is the trimmed message of the render the closure belongs to,
    whatever the live status cell holds at the time of the write (it holds
    'Logging...'); the stored document has that content; and the status
    string ends up empty. *)
Theorem logUserActivity_success appId keys cap autoId w :
  keys ≠ 0 →
  (∃ u, userId cap = Some u ∧ u ≠ "") →
  Js.trim (logMessage cap) ≠ "" →
  let m := logUserActivity appId keys cap autoId true in
  let path := ACTIVITIES_COLLECTION_PATH appId in
  let w1 := exec (setLogMessage "Logging...") w in
  let w2 := exec (setDoc path autoId (activity_payload cap) true) w1 in
  completion m w = Normal tt ∧
  logMessage (ui w1) = "Logging..." ∧
  exec m w = exec (setLogMessage "") w2 ∧
  emitted m w = [SetDoc path autoId (activity_payload cap)] ∧
  activity_payload cap !! "content" = Some (VStr (Js.trim (logMessage cap))) ∧
  (∃ d, activities (exec m w) !! autoId = Some d
        ∧ d !! "content" = Some (VStr (Js.trim (logMessage cap)))) ∧
  logMessage (ui (exec m w)) = "".
Proof.
  intros Hk Hu Hm m path w1 w2. subst m w1 w2 path.
  rewrite logUserActivity_body by (apply guard_false_iff; done).
  run_handler. split_and!; [done..| |done].
  eexists. split; [apply lookup_insert_eq|].
  rewrite resolve_lookup.
  by destruct (activity_payload_lookup cap) as [-> _].
Qed.

(** ** Admin status *)

Lemma includes_array (l : list FsValue) (u : string) :
  existsb (λ v, match v with VStr s => String.eqb s u | _ => false end) l = true
  ↔ VStr u ∈ l.
Proof.
  rewrite existsb_exists. split.
  - intros (v & Hin & Hv). destruct v; try done.
    apply String.eqb_eq in Hv as ->. by apply list_elem_of_In.
  - intros Hin. exists (VStr u). split; [by apply list_elem_of_In|].
    apply String.eqb_refl.
Qed.

Lemma checkAdminStatus_body appId keys admins u :
  keys ≠ 0 → u ≠ "" →
  checkAdminStatus appId keys admins u =
    try_catch
      (docSnap ← getDoc (ADMINS_DOC_PATH appId) admins;
       match docSnap with
       | Some data =>
           isUserAdmin ← includes (or_empty_array (data !! "uids")) u;
           setIsAdmin isUserAdmin;;
           console_log ("User " +:+ u +:+ " is admin: " +:+ Js.string_of_bool isUserAdmin)
       | None =>
           console_log "Admins document does not exist. No one is admin.";;
           setIsAdmin false
       end)
      (λ error,
         console_error "Error checking admin status:" (Some error);;
         setIsAdmin false).
Proof.
  intros Hk Hu. unfold checkAdminStatus. rewrite (db_Some _ Hk).
  apply truthy_string_true in Hu. by rewrite Hu.
Qed.

(** X3.  The check is skipped, leaving everything as it was, for a null
    database handle or an empty user id. *)
Lemma checkAdminStatus_skipped appId keys admins u w :
  keys = 0 ∨ u = "" →
  checkAdminStatus appId keys admins u w = (Normal tt, w).
Proof.
  intros [->| ->]; unfold checkAdminStatus; cbn; [done|].
  by rewrite orb_true_r.
Qed.

Lemma checkAdminStatus_verdict appId keys admins u w :
  keys ≠ 0 → u ≠ "" →
  completion (checkAdminStatus appId keys admins u) w = Normal tt ∧
  isAdmin (ui (exec (checkAdminStatus appId keys admins u) w)) = admin_verdict admins u.
Proof.
  intros Hk Hu. rewrite checkAdminStatus_body by done.
  destruct admins as [|[data|]]; [by run_handler| |by run_handler].
  unfold admin_verdict. run_handler.
  destruct (or_empty_array (data !! "uids")) eqn:E; by run_handler.
Qed.

(** On the data model.  A check that runs (database handle present, user
    id [u] not empty) against an admin-list record whose [uids] field is
    absent or an array completes
    normally and leaves [isAdmin] true exactly when the admins document
    exists and its [uids] collection, taken as empty when the field is
    absent, contains [u]; a missing document and a failed read both leave
    [isAdmin] false; and with [isAdmin] true the role label is
    Administrator, also on the rendered page. *)
Theorem checkAdminStatus_membership appId keys admins u w :
  keys ≠ 0 →
  u ≠ "" →
  (∀ data, admins = Resolved (Some data) → admin_list_record data) →
  let w' := exec (checkAdminStatus appId keys admins u) w in
  completion (checkAdminStatus appId keys admins u) w = Normal tt ∧
  (isAdmin (ui w') = true ↔
     ∃ data, admins = Resolved (Some data) ∧ VStr u ∈ uids data) ∧
  (admins = Resolved None ∨ admins = Failed → isAdmin (ui w') = false) ∧
  (isAdmin (ui w') = true →
     role_label (ui w') = "Administrator" ∧
     ∀ ul rl d, render appId (ui w') = Normal (Page ul rl d) → rl = "Administrator").
Proof.
  intros Hk Hu Hrec w'.
  destruct (checkAdminStatus_verdict appId keys admins u w Hk Hu) as [Hc Hv].
  fold w' in Hv. split_and!; [done|..].
  - rewrite Hv. destruct admins as [|[data|]]; cbn.
    + split; [done|]. by intros (? & ? & _).
    + specialize (Hrec data eq_refl). unfold admin_list_record in Hrec.
      unfold uids. destruct (data !! "uids") as [v|] eqn:E; cbn.
      * destruct v; try done. cbn. rewrite includes_array. split.
        -- intros H. exists data. by rewrite E.
        -- intros (data' & [= <-] & H). by rewrite E in H.
      * split; [done|]. intros (data' & [= <-] & H). rewrite E in H.
        by apply elem_of_nil in H.
    + split; [done|]. by intros (? & ? & _).
  - rewrite Hv. by intros [-> | ->].
  - intros Hadm. unfold role_label. rewrite Hadm. split; [done|].
    intros ul rl d. unfold render, role_label. rewrite Hadm.
    destruct (loading (ui w')); [done|].
    destruct (render_rows _); [|done]. by intros [= _ <- _].
Qed.

(** C1.  The source expects the admins document to hold an array or map
    of admin ids (comment on line 103).  With the ids kept as the keys of a map,
    [uids = {alice: true}], the check for 'alice' finds the document and
    the id in it, and yet leaves [isAdmin] false: a map has no [includes],
    the TypeError is caught and logged, and the role label reads Standard
    User for a listed admin. *)
Theorem checkAdminStatus_map_of_admin_ids appId w :
  let admins := Resolved (Some admins_map_example) in
  let m := checkAdminStatus appId 1 admins "alice" in
  admins_map_example !! "uids" = Some (VMap [("alice", VBool true)]) ∧
  completion m w = Normal tt ∧
  isAdmin (ui (exec m w)) = false ∧
  role_label (ui (exec m w)) = "Standard User" ∧
  emitted m w =
    [GetDoc (ADMINS_DOC_PATH appId);
     ConsoleError "Error checking admin status:"
       (Some (TypeError "adminList.includes is not a function"))].
Proof.
  cbn zeta. split; [done|]. rewrite checkAdminStatus_body by done.
  assert (admins_map_example !! "uids" = Some (VMap [("alice", VBool true)])) as E by done.
  unfold role_label. run_handler. rewrite E. cbn [or_empty_array truthy]. by run_handler.
Qed.

(** X1.  Outside the data model.  A [uids] field holding a map has no
    [includes] method: the TypeError is caught and [isAdmin] is false,
    whatever the map's keys are. *)
Lemma checkAdminStatus_uids_map appId keys data m u w :
  keys ≠ 0 → u ≠ "" → data !! "uids" = Some (VMap m) →
  isAdmin (ui (exec (checkAdminStatus appId keys (Resolved (Some data)) u) w)) = false ∧
  emitted (checkAdminStatus appId keys (Resolved (Some data)) u) w =
    [GetDoc (ADMINS_DOC_PATH appId);
     ConsoleError "Error checking admin status:"
       (Some (TypeError "adminList.includes is not a function"))].
Proof.
  intros Hk Hu Hm. rewrite checkAdminStatus_body by done.
  run_handler. rewrite Hm. cbn [or_empty_array truthy]. by run_handler.
Qed.

(** X2.  A [uids] field holding a non-empty string is searched for [u] as a
    substring. *)
Lemma checkAdminStatus_uids_string appId keys data s u w :
  keys ≠ 0 → u ≠ "" → s ≠ "" → data !! "uids" = Some (VStr s) →
  isAdmin (ui (exec (checkAdminStatus appId keys (Resolved (Some data)) u) w))
  = Js.string_includes u s.
Proof.
  intros Hk Hu Hs Hm.
  destruct (checkAdminStatus_verdict appId keys (Resolved (Some data)) u w Hk Hu) as [_ ->].
  unfold admin_verdict. rewrite Hm. cbn [or_empty_array truthy].
  apply truthy_string_true in Hs. by rewrite Hs.
Qed.

(** ** Authentication *)

(** What the listener does when no user is signed in, by cases on the
    token and on the outcome of the sign-in. *)
Lemma authStateChanged_signed_out appId token keys ok admins w :
  let m := authStateChanged appId token keys None ok admins in
  let call :=
    match token with
    | Some t => if Js.truthy_string t then SignInWithCustomToken t else SignInAnonymously
    | None => SignInAnonymously
    end in
  completion m w = Normal tt ∧
  emitted m w =
    (if ok then [call]
     else [call; ConsoleError "Authentication failed:"
                   (Some (Rejected match call with
                                   | SignInWithCustomToken _ => "signInWithCustomToken"
                                   | _ => "signInAnonymously"
                                   end))]) ∧
  ui (exec m w) =
    {| userId := if ok then userId (ui w) else Some "anonymous";
       isAuthReady := true; isAdmin := isAdmin (ui w); loading := false;
       globalActivities := globalActivities (ui w); logMessage := logMessage (ui w) |} ∧
  activities (exec m w) = activities w.
Proof.
  intros m call. subst m call. unfold authStateChanged.
  destruct token as [t|]; [destruct (Js.truthy_string t)|];
    destruct ok; run_handler; done.
Qed.

(** Without a configuration there is no auth service: the effect only
    logs and ends the loading state; no listener is registered, so no
    sign-in is ever attempted. *)
Lemma authEffect_unconfigured w :
  emitted (authEffect 0) w =
    [ConsoleError "Firebase Auth not initialized. Check __firebase_config." None] ∧
  loading (ui (exec (authEffect 0) w)) = false ∧
  auth_listening (exec (authEffect 0) w) = auth_listening w.
Proof. unfold authEffect. cbn [auth app]. by run_handler. Qed.

(** With a user signed in, the listener makes no sign-in call. *)
Lemma authStateChanged_signed_in appId token keys u ok admins w :
  sign_in_calls (emitted (authStateChanged appId token keys (Some u) ok admins) w) = [].
Proof.
  unfold authStateChanged, checkAdminStatus.
  destruct (Js.is_null (db keys) || negb (Js.truthy_string (uid u))); [by run_handler|].
  destruct admins as [|[data|]]; [by run_handler| |by run_handler].
  run_handler.
  destruct (or_empty_array (data !! "uids")) eqn:E; by run_handler.
Qed.

(** C6.  Each time the listener fires with no user, exactly one sign-in
    call is made: [signInWithCustomToken] with the token when a token was
    supplied (a non-empty string), [signInAnonymously] when there is none
    (null or the empty string); with a token supplied the anonymous call
    is not made. *)
Theorem sign_in_exactly_once appId token keys ok admins w :
  let calls :=
    sign_in_calls (emitted (authStateChanged appId token keys None ok admins) w) in
  length calls = 1 ∧
  (∀ t, token = Some t → t ≠ "" →
        calls = [SignInWithCustomToken t] ∧ SignInAnonymously ∉ calls) ∧
  (token = None ∨ token = Some "" → calls = [SignInAnonymously]).
Proof.
  intros calls. subst calls.
  destruct (authStateChanged_signed_out appId token keys ok admins w) as (_ & -> & _).
  split_and!.
  - destruct token as [t|]; [destruct (Js.truthy_string t)|]; by destruct ok.
  - intros t -> Ht. apply truthy_string_true in Ht. rewrite Ht.
    destruct ok; cbn; (split; [done|]); by intros [=]%list_elem_of_singleton.
  - intros [-> | ->]; by destruct ok.
Qed.

(** ** The seed record and the feed effect *)

Lemma seed_writes_app l k : seed_writes (l ++ k) = seed_writes l + seed_writes k.
Proof. unfold seed_writes. by rewrite List.filter_app, length_app. Qed.

(** The emptiness probe returns no document exactly on the empty
    collection. *)
Lemma seed_query_empty appId (c : Collection) :
  run_query (seed_query appId) c = [] ↔ c = ∅.
Proof.
  unfold run_query, seed_query. cbn.
  rewrite <- (map_to_list_empty_iff c).
  pose proof (merge_sort_Permutation name_order (map_to_list c)) as HP.
  destruct (merge_sort name_order (map_to_list c)) as [|x l]; cbn.
  - apply Permutation_nil_l in HP. by rewrite HP.
  - split; [done|]. intros H. rewrite H in HP. by apply Permutation_nil_r in HP.
Qed.

Lemma initialActivity_lookup :
  initialActivity !! "content" = Some (VStr "Initial activity logged to public feed.") ∧
  initialActivity !! "timestamp" = Some VServerTimestamp ∧
  initialActivity !! "userId" = Some (VStr "SYSTEM") ∧
  initialActivity !! "is_admin" = None ∧
  initialActivity !! "app_version" = None.
Proof. unfold initialActivity. split_and!; by simplify_map_eq. Qed.

Lemma initialActivity_dom :
  dom initialActivity = ({["content"; "timestamp"; "userId"]} : gset string).
Proof. unfold initialActivity. rewrite !dom_insert_L, dom_empty_L. set_solver. Qed.

Lemma logInitialActivity_run appId ok1 ok2 w :
  logInitialActivity appId ok1 ok2 w = (Normal tt, after_logInitialActivity appId ok1 ok2 w).
Proof.
  unfold logInitialActivity, after_logInitialActivity.
  destruct ok1; [|by run_handler]. run_handler.
  destruct (run_query (seed_query appId) (activities w)) eqn:E.
  - apply seed_query_empty in E. rewrite bool_decide_eq_true_2 by done.
    destruct ok2; by run_handler.
  - rewrite bool_decide_eq_false_2; [by run_handler|].
    intros H%(seed_query_empty appId). by rewrite H in E.
Qed.

Lemma feedEffect_skip appId keys cap ok1 ok2 w :
  keys = 0 ∨ isAuthReady cap = false →
  feedEffect appId keys cap ok1 ok2 w = (Normal tt, w).
Proof.
  unfold feedEffect. intros [-> | ->]; cbn; [done|by rewrite orb_true_r].
Qed.

Lemma feedEffect_run appId keys cap ok1 ok2 w :
  keys ≠ 0 → isAuthReady cap = true →
  feedEffect appId keys cap ok1 ok2 w =
    (Normal tt,
     set_feed_listening true
       (add_event (OnSnapshot (feed_query appId))
          (after_logInitialActivity appId ok1 ok2 w))).
Proof.
  intros Hk Hr. unfold feedEffect. rewrite (db_Some _ Hk), Hr. cbn [Js.is_null negb orb].
  unfold mbind, M_bind. rewrite logInitialActivity_run. by run_handler.
Qed.

Lemma after_logInitialActivity_trace appId ok1 ok2 w :
  ∃ l, trace (after_logInitialActivity appId ok1 ok2 w) = trace w ++ l ∧
       seed_writes l = (if ok1 && bool_decide (activities w = ∅) then 1 else 0) ∧
       (SetDoc (ACTIVITIES_COLLECTION_PATH appId) "system-init" initialActivity ∈ l
        ↔ ok1 = true ∧ activities w = ∅) ∧
       (∀ p i d, SetDoc p i d ∈ l →
          p = ACTIVITIES_COLLECTION_PATH appId ∧ i = "system-init" ∧ d = initialActivity).
Proof.
  unfold after_logInitialActivity.
  destruct ok1; cbn [negb andb]; [case_bool_decide; [destruct ok2|]|];
    cbn; rewrite <- ?app_assoc; eexists; (split; [done|]); cbn;
    (split; [done|]); rewrite ?elem_of_cons, ?elem_of_nil;
    (split; [naive_solver|]); intros p i d;
    rewrite ?elem_of_cons, ?elem_of_nil; naive_solver.
Qed.

(** ** The snapshot listener *)

Lemma to_activity_ok f d w :
  timestamp_ok (d.2 !! "timestamp") →
  to_activity f d w = (Normal (view_of f d), w).
Proof.
  unfold to_activity, view_of, format_timestamp, shown_time, timestamp_ok.
  destruct (d.2 !! "timestamp") as [[]|]; by run_handler.
Qed.

Lemma to_activity_world f d w : (to_activity f d w).2 = w.
Proof.
  unfold to_activity, format_timestamp.
  destruct (d.2 !! "timestamp") as [[]|]; by run_handler.
Qed.

Lemma mapM_to_activity_ok f docs w :
  Forall (λ d, timestamp_ok (d.2 !! "timestamp")) docs →
  mapM (to_activity f) docs w = (Normal (view_of f <$> docs), w).
Proof.
  induction 1 as [|d docs Hd _ IH]; [done|].
  cbn [mapM]. unfold mbind, M_bind. rewrite to_activity_ok by done.
  fold (@mbind M _). unfold mbind, M_bind. by rewrite IH.
Qed.

Lemma mapM_to_activity_world f docs w : (mapM (to_activity f) docs w).2 = w.
Proof.
  induction docs as [|d docs IH]; [done|].
  cbn [mapM]. unfold mbind, M_bind.
  pose proof (to_activity_world f d w) as Hd.
  destruct (to_activity f d w) as [[a|e] w1]; cbn in Hd; subst w1; [|done].
  destruct (mapM (to_activity f) docs w) as [[l|e] w2]; cbn in IH; by subst w2.
Qed.

(** The listener touches nothing but [globalActivities]; when a document
    makes the formatting throw it touches nothing at all. *)
Lemma snapshotReceived_world f docs w :
  exec (snapshotReceived f docs) w = w ∨
  ∃ acts, exec (snapshotReceived f docs) w = exec (setGlobalActivities acts) w.
Proof.
  unfold snapshotReceived, exec, mbind, M_bind.
  pose proof (mapM_to_activity_world f docs w) as H.
  destruct (mapM (to_activity f) docs w) as [[l|e] w1]; cbn in H; subst w1.
  - right. by exists l.
  - by left.
Qed.

(** ** What one event does to the world *)

(** The listener with a signed-in user: the user id is stored, the admin
    check runs, the two flags are set; no document is written. *)
Lemma authStateChanged_user appId token keys u ok admins w :
  let w' := exec (authStateChanged appId token keys (Some u) ok admins) w in
  ∃ b l,
    ui w' = {| userId := Some (uid u); isAuthReady := true; isAdmin := b;
               loading := false; globalActivities := globalActivities (ui w);
               logMessage := logMessage (ui w) |} ∧
    activities w' = activities w ∧
    trace w' = trace w ++ l ∧ List.filter is_set_doc l = [] ∧
    same_runtime w w'.
Proof.
  unfold authStateChanged, checkAdminStatus, same_runtime.
  destruct (Js.is_null (db keys) || negb (Js.truthy_string (uid u))).
  { run_handler. exists (isAdmin (ui w)), []. by rewrite app_nil_r. }
  destruct admins as [|[data|]].
  - run_handler. rewrite <- ?app_assoc. by eexists _, _.
  - run_handler. destruct (or_empty_array (data !! "uids")) eqn:E;
      run_handler; rewrite <- ?app_assoc; by eexists _, _.
  - run_handler. rewrite <- ?app_assoc. by eexists _, _.
Qed.

(** The listener with no user. *)
Lemma authStateChanged_nobody appId token keys ok admins w :
  let w' := exec (authStateChanged appId token keys None ok admins) w in
  ∃ l,
    ui w' = {| userId := if ok then userId (ui w) else Some "anonymous";
               isAuthReady := true; isAdmin := isAdmin (ui w);
               loading := false; globalActivities := globalActivities (ui w);
               logMessage := logMessage (ui w) |} ∧
    activities w' = activities w ∧
    trace w' = trace w ++ l ∧ List.filter is_set_doc l = [] ∧
    same_runtime w w'.
Proof.
  unfold authStateChanged, same_runtime.
  destruct token as [t|]; [destruct (Js.truthy_string t)|];
    destruct ok; run_handler; rewrite <- ?app_assoc; by eexists.
Qed.

(** The mount-time part of the authentication effect. *)
Lemma authEffect_run keys w :
  let w' := exec (authEffect keys) w in
  ∃ l,
    isAuthReady (ui w') = isAuthReady (ui w) ∧ userId (ui w') = userId (ui w) ∧
    activities w' = activities w ∧
    trace w' = trace w ++ l ∧ List.filter is_set_doc l = [] ∧
    server_time w' = server_time w ∧ feed_deps w' = feed_deps w.
Proof.
  unfold authEffect. destruct (auth keys); run_handler; rewrite <- ?app_assoc; by eexists.
Qed.

(** The feed effect: nothing when the guard stops it, otherwise the seed
    step followed by the subscription. *)
Lemma feedEffect_world appId keys cap ok1 ok2 w :
  let w' := exec (feedEffect appId keys cap ok1 ok2) w in
  let seeding := negb (Js.is_null (db keys)) && isAuthReady cap
                 && ok1 && bool_decide (activities w = ∅) in
  ∃ l,
    ui w' = ui w ∧
    activities w' =
      (if seeding && ok2
       then <["system-init" := resolve (server_time w) initialActivity]> (activities w)
       else activities w) ∧
    trace w' = trace w ++ l ∧
    seed_writes l = (if seeding then 1 else 0) ∧
    (∀ p i d, SetDoc p i d ∈ l →
       seeding = true ∧ p = ACTIVITIES_COLLECTION_PATH appId
       ∧ i = "system-init" ∧ d = initialActivity) ∧
    server_time w' = server_time w ∧ feed_deps w' = feed_deps w.
Proof.
  intros w' seeding. subst w' seeding. unfold exec.
  destruct keys as [|k].
  { rewrite feedEffect_skip by (by left). exists []. rewrite app_nil_r. cbn.
    split_and!; try done. by intros p i d ?%elem_of_nil. }
  destruct (isAuthReady cap) eqn:Hr.
  2:{ rewrite feedEffect_skip by (by right). exists []. rewrite app_nil_r. cbn.
      split_and!; try done. by intros p i d ?%elem_of_nil. }
  rewrite feedEffect_run by done. cbn [snd db app Js.is_null negb andb].
  unfold after_logInitialActivity.
  destruct ok1; cbn [negb andb]; [case_bool_decide as He; [destruct ok2|]|];
    cbn; rewrite <- ?app_assoc; eexists; (split_and!; [done..| |done|done]).
  all: intros p i d; rewrite ?elem_of_app, ?list_elem_of_singleton; naive_solver.
Qed.

Lemma no_set_doc_no_seed l : List.filter is_set_doc l = [] → seed_writes l = 0.
Proof.
  unfold seed_writes. induction l as [|e l IH]; [done|]. cbn.
  destruct e; cbn; try done. all: auto.
Qed.

Lemma seed_writes_pos l :
  seed_writes l ≠ 0 → ∃ p d, SetDoc p "system-init" d ∈ l.
Proof.
  unfold seed_writes. induction l as [|e l IH]; [done|]. cbn.
  destruct (is_seed_write e) eqn:E.
  - intros _. destruct e; try done. cbn in E. apply String.eqb_eq in E as ->.
    eexists _, _. by left.
  - intros (p & d & H)%IH. exists p, d. by right.
Qed.

Lemma no_set_doc_elem l p i d : List.filter is_set_doc l = [] → SetDoc p i d ∉ l.
Proof.
  intros H Hin%list_elem_of_In.
  assert (In (SetDoc p i d) (List.filter is_set_doc l)) as Hf
    by (by apply List.filter_In).
  by rewrite H in Hf.
Qed.

Lemma auto_id_not_seed i : is_auto_id i = true → String.eqb i "system-init" = false.
Proof.
  intros H. destruct (String.eqb_spec i "system-init") as [->|]; [|done].
  by vm_compute in H.
Qed.

(** Posting: by cases on the guard and on the write. *)
Lemma logUserActivity_world appId keys cap autoId ok w :
  let w' := exec (logUserActivity appId keys cap autoId ok) w in
  let go := negb (logUserActivity_guard keys cap) in
  userId (ui w') = userId (ui w) ∧ isAuthReady (ui w') = isAuthReady (ui w) ∧
  isAdmin (ui w') = isAdmin (ui w) ∧ loading (ui w') = loading (ui w) ∧
  globalActivities (ui w') = globalActivities (ui w) ∧
  logMessage (ui w') =
    (if go then if ok then "" else "Error logging activity." else logMessage (ui w)) ∧
  activities w' =
    (if go && ok
     then <[autoId := resolve (server_time w) (activity_payload cap)]> (activities w)
     else activities w) ∧
  trace w' = trace w ++
    (if go
     then SetDoc (ACTIVITIES_COLLECTION_PATH appId) autoId (activity_payload cap)
          :: (if ok then []
              else [ConsoleError "Error logging user activity:" (Some (Rejected "setDoc"))])
     else []) ∧
  same_runtime w w'.
Proof.
  intros w' go. subst w' go. unfold same_runtime.
  destruct (logUserActivity_guard keys cap) eqn:G; cbn [negb andb].
  - rewrite logUserActivity_skip by done. run_handler. by rewrite app_nil_r.
  - rewrite logUserActivity_body by done. destruct ok; run_handler; by rewrite <- ?app_assoc.
Qed.

(** Sequencing of handlers that complete normally. *)
Lemma exec_bind {A B} (m : M A) (f : A → M B) w a :
  completion m w = Normal a → exec (m ≫= f) w = exec (f a) (exec m w).
Proof.
  unfold exec, completion, mbind, M_bind. destruct (m w) as [c w1]; cbn. by intros ->.
Qed.

Lemma exec_update f w : exec (update f) w = f w.
Proof. done. Qed.

Lemma authEffect_completion keys w : completion (authEffect keys) w = Normal tt.
Proof. unfold authEffect. destruct (auth keys); by run_handler. Qed.

Lemma feedEffect_completion appId keys cap ok1 ok2 w :
  completion (feedEffect appId keys cap ok1 ok2) w = Normal tt.
Proof.
  unfold completion. destruct keys as [|k].
  { by rewrite feedEffect_skip by (by left). }
  destruct (isAuthReady cap) eqn:Hr.
  - by rewrite feedEffect_run.
  - by rewrite feedEffect_skip by (by right).
Qed.

(** The two effects of a commit, run for the render [cap]. *)
Lemma effects_world appId keys cap ok1 ok2 (w : World) (with_auth : bool) :
  let m : M unit :=
    (if with_auth then authEffect keys else mret tt);;
    feedEffect appId keys cap ok1 ok2;;
    update (set_feed_deps (Some (isAuthReady cap))) in
  let w' := exec m w in
  let seeding := negb (Js.is_null (db keys)) && isAuthReady cap
                 && ok1 && bool_decide (activities w = ∅) in
  ∃ l,
    isAuthReady (ui w') = isAuthReady (ui w) ∧ userId (ui w') = userId (ui w) ∧
    activities w' =
      (if seeding && ok2
       then <["system-init" := resolve (server_time w) initialActivity]> (activities w)
       else activities w) ∧
    trace w' = trace w ++ l ∧
    seed_writes l = (if seeding then 1 else 0) ∧
    (∀ p i d, SetDoc p i d ∈ l →
       seeding = true ∧ p = ACTIVITIES_COLLECTION_PATH appId
       ∧ i = "system-init" ∧ d = initialActivity) ∧
    feed_deps w' = Some (isAuthReady cap).
Proof.
  intros m w' seeding. subst m w'.
  set (w1 := exec (if with_auth then authEffect keys else mret tt) w).
  assert (∃ l1, isAuthReady (ui w1) = isAuthReady (ui w) ∧ userId (ui w1) = userId (ui w)
                ∧ activities w1 = activities w ∧ trace w1 = trace w ++ l1
                ∧ List.filter is_set_doc l1 = [] ∧ server_time w1 = server_time w)
    as (l1 & Hr1 & Hu1 & Ha1 & Ht1 & Hl1 & Hs1).
  { subst w1. destruct with_auth.
    - destruct (authEffect_run keys w) as (l1 & ? & ? & ? & ? & ? & ? & ?). by exists l1.
    - exists []. by rewrite app_nil_r. }
  rewrite (exec_bind _ _ w tt)
    by (destruct with_auth; [apply authEffect_completion|done]).
  fold w1. rewrite (exec_bind _ _ w1 tt) by apply feedEffect_completion.
  destruct (feedEffect_world appId keys cap ok1 ok2 w1)
    as (l2 & Hui & Ha2 & Ht2 & Hn2 & Hall2 & Hs2 & _).
  cbn zeta in *. rewrite Ha1, Hs1 in *. fold seeding in Ha2, Hn2, Hall2.
  exists (l1 ++ l2). rewrite exec_update.
  cbn [ui activities trace feed_deps set_feed_deps].
  rewrite Hui, Ha2, Ht2, Ht1, app_assoc, seed_writes_app, Hn2.
  rewrite (no_set_doc_no_seed _ Hl1). split_and!; try done.
  intros p i d [Hin|Hin]%elem_of_app; [|by apply Hall2].
  by apply no_set_doc_elem in Hin.
Qed.

(** Everything the later invariants need to know about one step. *)
Lemma step_summary appId token keys f a w w' :
  step appId token keys f a w = Some w' →
  ∃ l,
    trace w' = trace w ++ l ∧
    (seed_writes l + seed_budget w' ≤ seed_budget w)%nat ∧
    (∀ p i d, SetDoc p i d ∈ l →
       p = ACTIVITIES_COLLECTION_PATH appId ∧
       ((i = "system-init" ∧ d = initialActivity ∧ activities w = ∅ ∧ is_effect a) ∨
        (∃ ok, a = Click i ok ∧ d = activity_payload (ui w) ∧ is_auto_id i = true
               ∧ logUserActivity_guard keys (ui w) = false))) ∧
    (activities w' = activities w ∨
     ∃ p i d, SetDoc p i d ∈ l ∧
              activities w' = <[i := resolve (server_time w) d]> (activities w)) ∧
    (userId (ui w') = userId (ui w) ∨
     (∃ u ok admins, a = AuthStateChanged (Some u) ok admins) ∨
     (userId (ui w') = Some "anonymous" ∧ ∃ admins, a = AuthStateChanged None false admins)).
Proof.
  unfold step. destruct (enabled a w) eqn:En; [|done]. intros [= <-].
  destruct a as [ok1 ok2|[u|] ok admins|ok1 ok2|docs|value|autoId ok];
    cbn [handler enabled] in *.
  - (* Mount *)
    destruct (effects_world appId keys (ui w) ok1 ok2 w true)
      as (l & Hr & Hu & Ha & Ht & Hn & Hall & Hd).
    exists l. cbn zeta in *. unfold seed_budget. rewrite Hd, Hr, Hn.
    destruct (feed_deps w); [done|].
    split_and!; [done| | | |by left].
    + repeat case_match; cbn in *; try lia; by simplify_eq.
    + intros p i d Hin. destruct (Hall p i d Hin) as (Hs & -> & -> & ->).
      split; [done|]. left. split_and!; try done.
      apply andb_true_iff in Hs as [_ Hs]. by apply bool_decide_eq_true in Hs.
    + case_match eqn:Hs; [|by left]. destruct ok2; [|by left]. right.
      destruct (seed_writes_pos l) as (p & d & Hin); [by rewrite Hn|].
      exists p, "system-init", d. split; [done|].
      by destruct (Hall _ _ _ Hin) as (_ & _ & _ & ->).
  - (* listener, signed in *)
    destruct (authStateChanged_user appId token keys u ok admins w)
      as (b & l & Hui & Ha & Ht & Hl & Hs & _ & _ & Hd).
    exists l. cbn zeta in *. unfold seed_budget. rewrite Hd, Hui.
    rewrite (no_set_doc_no_seed _ Hl). cbn [isAuthReady userId].
    split_and!; [done| | |by left|right; left; by eexists _, _, _].
    + repeat case_match; lia.
    + intros p i d Hin. by apply no_set_doc_elem in Hin.
  - (* listener, signed out *)
    destruct (authStateChanged_nobody appId token keys ok admins w)
      as (l & Hui & Ha & Ht & Hl & Hs & _ & _ & Hd).
    exists l. cbn zeta in *. unfold seed_budget. rewrite Hd, Hui.
    rewrite (no_set_doc_no_seed _ Hl). cbn [isAuthReady userId].
    split_and!; [done| | |by left|].
    + repeat case_match; lia.
    + intros p i d Hin. by apply no_set_doc_elem in Hin.
    + destruct ok; [by left|]. right. right. split; [done|by eexists].
  - (* FeedEffect *)
    destruct (effects_world appId keys (ui w) ok1 ok2 w false)
      as (l & Hr & Hu & Ha & Ht & Hn & Hall & Hd).
    exists l. cbn zeta in *.
    change (exec (mret tt;; ?m) w) with (exec m w) in *.
    unfold seed_budget. rewrite Hd, Hr, Hn.
    split_and!; [done| | | |by left].
    + destruct (feed_deps w) as [[]|]; repeat case_match; cbn in *; try lia; by simplify_eq.
    + intros p i d Hin. destruct (Hall p i d Hin) as (Hs & -> & -> & ->).
      split; [done|]. left. split_and!; try done.
      apply andb_true_iff in Hs as [_ Hs]. by apply bool_decide_eq_true in Hs.
    + case_match eqn:Hs; [|by left]. destruct ok2; [|by left]. right.
      destruct (seed_writes_pos l) as (p & d & Hin); [by rewrite Hn|].
      exists p, "system-init", d. split; [done|].
      by destruct (Hall _ _ _ Hin) as (_ & _ & _ & ->).
  - (* snapshot *)
    exists []. rewrite app_nil_r.
    assert (exec (snapshotReceived f docs) w = w ∨
            ∃ acts, exec (snapshotReceived f docs) w = exec (setGlobalActivities acts) w)
      as [-> | [acts ->]] by apply snapshotReceived_world.
    + split_and!; [done|cbn; lia| |by left..]. by intros p i d ?%elem_of_nil.
    + run_handler. split_and!; [done|cbn; unfold seed_budget; cbn; lia| |by left..].
      by intros p i d ?%elem_of_nil.
  - (* change *)
    exists []. rewrite app_nil_r. run_handler.
    split_and!; [done|cbn; unfold seed_budget; cbn; lia| |by left..].
    by intros p i d ?%elem_of_nil.
  - (* click *)
    apply andb_true_iff in En as [_ Hid].
    destruct (logUserActivity_world appId keys (ui w) autoId ok w)
      as (Hu & Hr & _ & _ & _ & _ & Ha & Ht & _ & _ & _ & Hd).
    cbn zeta in *. eexists. split; [exact Ht|].
    unfold seed_budget. rewrite Hd, Hr.
    destruct (logUserActivity_guard keys (ui w)) eqn:G; cbn [negb andb] in *.
    + split_and!; [cbn; lia| |by left..]. by intros p i d ?%elem_of_nil.
    + split_and!; [| | |by left].
      * unfold seed_writes. cbn [List.filter is_seed_write].
        rewrite (auto_id_not_seed _ Hid). destruct ok; cbn; lia.
      * intros p i d Hin.
        assert (SetDoc p i d = SetDoc (ACTIVITIES_COLLECTION_PATH appId) autoId
                                 (activity_payload (ui w))) as [= -> -> ->].
        { destruct ok; rewrite ?elem_of_cons, ?elem_of_nil in Hin; naive_solver. }
        split; [done|]. right. by exists ok.
      * destruct ok; [|by left]. right. eexists _, _, _. split; [|exact Ha].
        apply elem_of_cons. by left.
Qed.

Lemma step_emitted appId token keys f a w w' l :
  step appId token keys f a w = Some w' →
  trace w' = trace w ++ l →
  emitted (handler appId token keys f a w) w = l.
Proof.
  unfold step. destruct (enabled a w); [|done]. intros [= <-] Ht.
  unfold emitted. by rewrite Ht, drop_app_length.
Qed.

(** ** Runs of the event loop *)

Lemma run_seed_budget appId token keys f acts w w' :
  run appId token keys f acts w = Some w' →
  (seed_writes (trace w') + seed_budget w' ≤ seed_writes (trace w) + seed_budget w)%nat.
Proof.
  revert w. induction acts as [|a acts IH]; intros w; cbn [run].
  - by intros [= <-].
  - destruct (step appId token keys f a w) as [w1|] eqn:Hs; [|done].
    intros Hrun%IH.
    destruct (step_summary _ _ _ _ _ _ _ Hs) as (l & Ht & Hb & _).
    rewrite Ht, seed_writes_app in Hrun. lia.
Qed.

Lemma seed_budget_le w : (seed_budget w ≤ 1)%nat.
Proof. unfold seed_budget. repeat case_match; lia. Qed.

(** C3.  When the feed effect sets the listener up (database handle
    present, authentication ready): if the emptiness probe resolves, the
    seed document is written exactly when the collection is empty; with
    at least one record present no seed write is made, whatever the
    outcome of the calls, and the collection stays as it is; a seed write
    that succeeds on the empty collection leaves the seed record as its
    only document; and along any run of the component the seed document
    is written at most once. *)
Theorem seed_written_iff_collection_empty appId token keys f cap ok1 ok2 w :
  keys ≠ 0 →
  isAuthReady cap = true →
  let m := feedEffect appId keys cap ok1 ok2 in
  let seed := SetDoc (ACTIVITIES_COLLECTION_PATH appId) "system-init" initialActivity in
  OnSnapshot (feed_query appId) ∈ emitted m w ∧
  (ok1 = true → (seed ∈ emitted m w ↔ activities w = ∅)) ∧
  (activities w ≠ ∅ →
     (∀ p i d, SetDoc p i d ∉ emitted m w) ∧ activities (exec m w) = activities w) ∧
  (ok1 = true → ok2 = true → activities w = ∅ →
     activities (exec m w) = {["system-init" := resolve (server_time w) initialActivity]}) ∧
  (∀ acts w0 w1, run appId token keys f acts w0 = Some w1 →
     (seed_writes (trace w1) ≤ seed_writes (trace w0) + 1)%nat).
Proof.
  intros Hk Hr m seed. subst m seed.
  destruct (after_logInitialActivity_trace appId ok1 ok2 w) as (l & Hl & Hn & Hiff & Hall).
  assert (emitted (feedEffect appId keys cap ok1 ok2) w = l ++ [OnSnapshot (feed_query appId)])
    as ->.
  { unfold emitted, exec. rewrite feedEffect_run by done.
    cbn [snd trace set_feed_listening add_event].
    by rewrite Hl, <- app_assoc, drop_app_length. }
  assert (activities (exec (feedEffect appId keys cap ok1 ok2) w)
          = activities (after_logInitialActivity appId ok1 ok2 w)) as ->.
  { unfold exec. by rewrite feedEffect_run. }
  split_and!.
  - apply elem_of_app. right. by apply list_elem_of_singleton.
  - intros ->. rewrite elem_of_app, list_elem_of_singleton, Hiff. naive_solver.
  - intros Hne. split.
    + intros p i d [Hin|Hin%list_elem_of_singleton]%elem_of_app; [|done].
      destruct (Hall p i d Hin) as (-> & -> & ->). apply Hiff in Hin as [_ ?]. done.
    + unfold after_logInitialActivity.
      rewrite bool_decide_eq_false_2 by done. by destruct ok1.
  - intros -> -> He. unfold after_logInitialActivity.
    rewrite bool_decide_eq_true_2 by done. cbn. by rewrite He, insert_empty.
  - intros acts w0 w1 Hrun%run_seed_budget.
    pose proof (seed_budget_le w0). lia.
Qed.

(** ** Existing records *)

(** A step writes only where the collection holds nothing. *)
Lemma step_writes_fresh appId token keys f a w w' l p i d :
  step appId token keys f a w = Some w' →
  fresh_for a w →
  trace w' = trace w ++ l →
  SetDoc p i d ∈ l →
  activities w !! i = None ∧
  ((∃ ok, a = Click i ok) ∨ (i = "system-init" ∧ activities w = ∅)).
Proof.
  intros Hs Hf Ht Hin.
  destruct (step_summary _ _ _ _ _ _ _ Hs) as (l' & Ht' & _ & Hall & _).
  rewrite Ht in Ht'. apply app_inv_head in Ht' as <-.
  destruct (Hall p i d Hin) as (_ & [(-> & _ & He & _)|(ok & -> & _)]).
  - split; [by rewrite He|by right].
  - split; [exact Hf|left; by exists ok].
Qed.

Lemma step_subseteq appId token keys f a w w' :
  step appId token keys f a w = Some w' →
  fresh_for a w →
  activities w ⊆ activities w'.
Proof.
  intros Hs Hf.
  destruct (step_summary _ _ _ _ _ _ _ Hs) as (l & Ht & _ & _ & Ha & _).
  destruct Ha as [->|(p & i & d & Hin & ->)]; [done|].
  apply insert_subseteq. by eapply step_writes_fresh.
Qed.

(** C7.  Whatever the event, every document write it makes goes to an
    identifier under which the collection holds nothing (a freshly
    generated one for the user action, the fixed seed identifier and then
    only on the empty collection), and every record that existed before
    the event is there, unchanged, after it. *)
Theorem existing_records_unchanged appId token keys f a w w' :
  step appId token keys f a w = Some w' →
  fresh_for a w →
  (∀ p i d, SetDoc p i d ∈ emitted (handler appId token keys f a w) w →
     activities w !! i = None ∧
     ((∃ ok, a = Click i ok) ∨ (i = "system-init" ∧ activities w = ∅))) ∧
  (∀ id d, activities w !! id = Some d → activities w' !! id = Some d) ∧
  activities w ⊆ activities w'.
Proof.
  intros Hs Hf.
  destruct (step_summary _ _ _ _ _ _ _ Hs) as (l & Ht & _).
  rewrite (step_emitted _ _ _ _ _ _ _ _ Hs Ht).
  pose proof (step_subseteq _ _ _ _ _ _ _ Hs Hf) as Hsub.
  split_and!; [|by intros id d Hid; eapply lookup_weaken|done].
  intros p i d Hin. by eapply step_writes_fresh.
Qed.

(** X17.  Along a whole run in which every generated identifier is
    fresh, the collection only grows: the records it held at the start are
    there, unchanged, at the end. *)
Lemma run_existing_records_unchanged appId token keys f acts w w' :
  run appId token keys f acts w = Some w' →
  fresh_run appId token keys f acts w →
  activities w ⊆ activities w'.
Proof.
  revert w. induction acts as [|a acts IH]; intros w; cbn [run fresh_run].
  - by intros [= <-].
  - destruct (step appId token keys f a w) as [w1|] eqn:Hs; [|done].
    intros Hrun [Hf Hfr]. etrans; [|by apply IH].
    by eapply step_subseteq.
Qed.

(** ** A failed sign-in *)

Lemma run_anonymous appId token keys f acts w w' :
  no_user_signs_in acts →
  userId (ui w) = Some "anonymous" →
  run appId token keys f acts w = Some w' →
  userId (ui w') = Some "anonymous" ∧
  ∃ l, trace w' = trace w ++ l ∧
       ∀ p i d, SetDoc p i d ∈ l →
         i = "system-init" ∨ d !! "userId" = Some (VStr "anonymous").
Proof.
  revert w. induction acts as [|a acts IH]; intros w Hno Hu; cbn [run].
  - intros [= <-]. split; [done|]. exists []. rewrite app_nil_r.
    split; [done|]. by intros p i d ?%elem_of_nil.
  - destruct (step appId token keys f a w) as [w1|] eqn:Hs; [|done]. intros Hrun.
    destruct (step_summary _ _ _ _ _ _ _ Hs) as (l & Ht & _ & Hall & _ & Hid).
    assert (userId (ui w1) = Some "anonymous") as Hu1.
    { destruct Hid as [->|[(u & ok & admins & ->)|[? _]]]; [done| |done].
      exfalso. eapply Hno. by left. }
    destruct (IH w1) as (Hu' & l' & Ht' & Hall'); [|done..|].
    { intros u ok admins Hin. eapply Hno. by right. }
    split; [done|]. exists (l ++ l'). rewrite Ht', Ht, app_assoc. split; [done|].
    intros p i d [Hin|Hin]%elem_of_app; [|by eapply Hall'].
    destruct (Hall p i d Hin) as (_ & [(-> & _)|(ok & _ & -> & _)]); [by left|right].
    destruct (activity_payload_lookup (ui w)) as (_ & _ & -> & _). by rewrite Hu.
Qed.

(** C10.  When the sign-in attempt is rejected, the listener still
    completes: [userId] is the string 'anonymous', authentication is marked
    ready and loading is over, so the page is rendered instead of the
    connecting screen.  From then on, as long as no user signs in, [userId]
    stays 'anonymous' and every activity record written carries it; and
    such a write does go through: typing a message and pressing the button
    stores a record whose [userId] is 'anonymous'. *)
Theorem failed_sign_in_proceeds_as_anonymous appId token keys f admins w :
  let m := authStateChanged appId token keys None false admins in
  let w1 := exec m w in
  completion m w = Normal tt ∧
  userId (ui w1) = Some "anonymous" ∧
  isAuthReady (ui w1) = true ∧
  loading (ui w1) = false ∧
  render appId (ui w1) ≠ Normal Connecting ∧
  (∀ acts w2,
     no_user_signs_in acts →
     run appId token keys f acts w1 = Some w2 →
     userId (ui w2) = Some "anonymous" ∧
     ∀ p i d, SetDoc p i d ∈ drop (length (trace w1)) (trace w2) →
       i ≠ "system-init" → d !! "userId" = Some (VStr "anonymous")) ∧
  (keys ≠ 0 → isAdmin (ui w) = false →
   ∀ msg autoId,
     Js.trim msg ≠ "" → msg ≠ "Logging..." → is_auto_id autoId = true →
     ∃ w2 d,
       run appId token keys f [Change msg; Click autoId true] w1 = Some w2 ∧
       activities w2 !! autoId = Some d ∧
       d !! "userId" = Some (VStr "anonymous")).
Proof.
  intros m w1. subst m w1.
  destruct (authStateChanged_signed_out appId token keys false admins w)
    as (Hc & _ & Hui & _).
  cbn zeta in *. split_and!; [done|by rewrite Hui..| | |].
  - unfold render. rewrite Hui. cbn [loading isAdmin].
    destruct (isAdmin (ui w)); [|done]. by destruct (render_rows _).
  - intros acts w2 Hno Hrun.
    destruct (run_anonymous _ _ _ _ _ _ _ Hno ltac:(by rewrite Hui) Hrun)
      as (Hu & l & Ht & Hall).
    split; [done|]. rewrite Ht, drop_app_length. intros p i d Hin Hi.
    by destruct (Hall p i d Hin).
  - intros Hk Hadm msg autoId Hmsg Hlog Hid.
    set (w1 := exec (authStateChanged appId token keys None false admins) w) in *.
    assert (step appId token keys f (Change msg) w1 = Some (exec (setLogMessage msg) w1))
      as Hs1.
    { unfold step. cbn [enabled handler]. unfold user_dashboard_shown.
      by rewrite Hui, Hadm. }
    set (w2 := exec (setLogMessage msg) w1) in *.
    assert (ui w2 = {| userId := Some "anonymous"; isAuthReady := true;
                       isAdmin := false; loading := false;
                       globalActivities := globalActivities (ui w);
                       logMessage := msg |}) as Hui2.
    { subst w2. run_handler. by rewrite Hui, Hadm. }
    assert (logUserActivity_guard keys (ui w2) = false) as G.
    { apply guard_false_iff. rewrite Hui2. cbn. split_and!; [done| |done]. by eexists. }
    destruct (logUserActivity_world appId keys (ui w2) autoId true w2)
      as (_ & _ & _ & _ & _ & _ & Ha & _).
    cbn zeta in Ha. rewrite G in Ha. cbn [negb andb] in Ha.
    exists (exec (logUserActivity appId keys (ui w2) autoId true) w2),
           (resolve (server_time w2) (activity_payload (ui w2))).
    split_and!.
    + cbn [run]. rewrite Hs1. fold w2. unfold step. cbn [enabled handler].
      unfold user_dashboard_shown, button_disabled. rewrite Hui2, Hid.
      cbn [loading isAdmin logMessage negb andb].
      apply truthy_string_true in Hmsg. rewrite Hmsg.
      apply String.eqb_neq in Hlog. rewrite Hlog. done.
    + rewrite Ha. apply lookup_insert_eq.
    + rewrite resolve_lookup.
      destruct (activity_payload_lookup (ui w2)) as (_ & _ & -> & _).
      by rewrite Hui2.
Qed.

(** ** The fields of created records *)

(** Against C2 as stated: the seed record written on an empty collection
    has no [is_admin] and no [app_version] field. *)
Lemma seed_record_lacks_fields :
  ∃ p d,
    SetDoc p "system-init" d
      ∈ emitted (feedEffect "app" 1 ready_state true true) (initial_world ∅ 0) ∧
    ¬ has_activity_fields d.
Proof.
  exists (ACTIVITIES_COLLECTION_PATH "app"), initialActivity. split.
  - unfold emitted, exec. rewrite feedEffect_run by done.
    unfold after_logInitialActivity. rewrite bool_decide_eq_true_2 by done.
    cbn. rewrite !elem_of_cons. right. by left.
  - intros (_ & _ & _ & [b Hb] & _).
    destruct initialActivity_lookup as (_ & _ & _ & Hn & _). by rewrite Hn in Hb.
Qed.

(** C2 (amended).  Every record this program writes is one of two kinds.
    A user action writes exactly the five fields content (the trimmed
    message), timestamp (the server-time sentinel), userId (text),
    is_admin (boolean) and app_version ('1.0').  The seed write, made by
    the feed effect only, writes exactly the three fields content,
    timestamp (the server-time sentinel) and userId ('SYSTEM'). *)
Theorem created_records_fields appId token keys f a w w' p i d :
  step appId token keys f a w = Some w' →
  SetDoc p i d ∈ emitted (handler appId token keys f a w) w →
  ((∃ ok, a = Click i ok) ∧
   dom d = {["content"; "timestamp"; "userId"; "is_admin"; "app_version"]} ∧
   has_activity_fields d ∧
   d !! "content" = Some (VStr (Js.trim (logMessage (ui w)))) ∧
   d !! "app_version" = Some (VStr "1.0"))
  ∨
  (is_effect a ∧ i = "system-init" ∧
   dom d = {["content"; "timestamp"; "userId"]} ∧
   d !! "content" = Some (VStr "Initial activity logged to public feed.") ∧
   d !! "timestamp" = Some VServerTimestamp ∧
   d !! "userId" = Some (VStr "SYSTEM")).
Proof.
  intros Hs Hin.
  destruct (step_summary _ _ _ _ _ _ _ Hs) as (l & Ht & _ & Hall & _).
  rewrite (step_emitted _ _ _ _ _ _ _ _ Hs Ht) in Hin.
  destruct (Hall p i d Hin) as (_ & [(-> & -> & _ & He)|(ok & -> & -> & _ & G)]).
  - right. destruct initialActivity_lookup as (? & ? & ? & _).
    split_and!; try done; apply initialActivity_dom.
  - left. destruct (activity_payload_lookup (ui w)) as (Hc & Hts & Hu & Hadm & Hv).
    apply guard_false_iff in G as (_ & (u & Hid & _) & _).
    rewrite Hid in Hu. unfold has_activity_fields.
    split_and!; eauto using activity_payload_dom.
Qed.

(** ** Failures *)

(** Against C4 as stated: the handler of a failed sign-in changes
    [userId], which is not the status string. *)
Lemma authentication_failed_changes_userId :
  let w := initial_world ∅ 0 in
  let w' := exec (authentication_failed (Rejected "signInAnonymously")) w in
  userId (ui w) = None ∧ userId (ui w') = Some "anonymous" ∧
  ¬ only_status_changed (ui w) (ui w').
Proof. cbn. split_and!; [done..|]. by intros [? _]. Qed.

(** C4 (amended).  Each failure is caught where it occurs: the function
    completes normally, the failing call is made once and followed only by
    one [console.error] line, and the collection is untouched.  What the
    handler changes besides logging is fixed per site: a failed sign-in
    sets [userId] to 'anonymous' (and the listener goes on to set
    [isAuthReady] and clear [loading]); a failed admin check sets
    [isAdmin] to false; a failed seed probe or seed write changes no
    state; a failed activity write sets the status string to
    'Error logging activity.'. *)
Theorem failures_caught_and_contained appId token keys w :
  (* sign-in *)
  (∀ admins,
     let m := authStateChanged appId token keys None false admins in
     completion m w = Normal tt ∧
     (∃ call err, is_sign_in call = true ∧
        emitted m w = [call; ConsoleError "Authentication failed:" (Some err)]) ∧
     ui (exec m w) =
       {| userId := Some "anonymous"; isAuthReady := true; isAdmin := isAdmin (ui w);
          loading := false; globalActivities := globalActivities (ui w);
          logMessage := logMessage (ui w) |} ∧
     activities (exec m w) = activities w) ∧
  (* admin check *)
  (∀ u, keys ≠ 0 → u ≠ "" →
     let m := checkAdminStatus appId keys Failed u in
     completion m w = Normal tt ∧
     emitted m w = [GetDoc (ADMINS_DOC_PATH appId);
                    ConsoleError "Error checking admin status:" (Some (Rejected "getDoc"))] ∧
     ui (exec m w) =
       {| userId := userId (ui w); isAuthReady := isAuthReady (ui w); isAdmin := false;
          loading := loading (ui w); globalActivities := globalActivities (ui w);
          logMessage := logMessage (ui w) |} ∧
     activities (exec m w) = activities w) ∧
  (* seed *)
  (∀ ok1 ok2, ok1 = false ∨ (activities w = ∅ ∧ ok2 = false) →
     let m := logInitialActivity appId ok1 ok2 in
     completion m w = Normal tt ∧
     (∃ err,
        emitted m w =
          GetDocs (seed_query appId)
          :: (if ok1
              then [SetDoc (ACTIVITIES_COLLECTION_PATH appId) "system-init" initialActivity]
              else [])
          ++ [ConsoleError "Error logging initial activity:" (Some err)]) ∧
     ui (exec m w) = ui w ∧
     activities (exec m w) = activities w) ∧
  (* activity write *)
  (∀ cap autoId, logUserActivity_guard keys cap = false →
     let m := logUserActivity appId keys cap autoId false in
     completion m w = Normal tt ∧
     emitted m w = [SetDoc (ACTIVITIES_COLLECTION_PATH appId) autoId (activity_payload cap);
                    ConsoleError "Error logging user activity:" (Some (Rejected "setDoc"))] ∧
     only_status_changed (ui w) (ui (exec m w)) ∧
     logMessage (ui (exec m w)) = "Error logging activity." ∧
     activities (exec m w) = activities w).
Proof.
  split_and!.
  - intros admins m. subst m.
    destruct (authStateChanged_signed_out appId token keys false admins w)
      as (Hc & He & Hui & Ha).
    cbn zeta in *. split_and!; [done| |done..].
    rewrite He. eexists _, _. split; [|done].
    destruct token as [t|]; [by destruct (Js.truthy_string t)|done].
  - intros u Hk Hu m. subst m. rewrite checkAdminStatus_body by done. by run_handler.
  - intros ok1 ok2 H m. subst m. unfold emitted, exec, completion.
    rewrite logInitialActivity_run. cbn [fst snd]. unfold after_logInitialActivity.
    destruct H as [-> | [He ->]].
    + cbn. rewrite <- ?app_assoc, drop_app_length. split_and!; try done. by eexists.
    + destruct ok1; cbn.
      * rewrite bool_decide_eq_true_2 by done. cbn.
        rewrite <- ?app_assoc, drop_app_length. split_and!; try done. by eexists.
      * rewrite <- ?app_assoc, drop_app_length. split_and!; try done. by eexists.
  - intros cap autoId G m. subst m. rewrite logUserActivity_body by done.
    by run_handler.
Qed.

(** ** The order of field values *)

Lemma and_then_lawful {A B} (cmp1 : A → A → comparison) (cmp2 : B → B → comparison) a b :
  lawful_at cmp1 a → lawful_at cmp2 b →
  lawful_at (λ e1 e2 : A * B, and_then (cmp1 e1.1 e2.1) (cmp2 e1.2 e2.2)) (a, b).
Proof.
  intros (E1 & A1 & T1) (E2 & A2 & T2). split_and!.
  - intros [a' b']; cbn. destruct (cmp1 a a') eqn:E; try done.
    intros H. apply E1 in E. apply E2 in H. congruence.
  - intros [a' b']; cbn. rewrite A1, A2. by destruct (cmp1 a a').
  - intros [a' b'] [a'' b'']; cbn. destruct (cmp1 a a') eqn:E; try done.
    + apply E1 in E as <-. destruct (cmp1 a a''); try done. apply T2.
    + intros _ H. rewrite (T1 a' a''); [done|done|]. by destruct (cmp1 a' a'').
Qed.

Lemma list_compare_lawful {A} (cmp : A → A → comparison) l :
  Forall (lawful_at cmp) l → lawful_at (list_compare cmp) l.
Proof.
  induction 1 as [|x l (Ex & Ax & Tx) _ (El & Al & Tl)]; split_and!.
  - by intros [|??].
  - by intros [|??].
  - by intros [|??] [|??].
  - intros [|y k]; cbn; [done|].
    destruct (cmp x y) eqn:E; try done. intros H. apply Ex in E. apply El in H. congruence.
  - intros [|y k]; cbn; [done|]. rewrite Ax, Al. by destruct (cmp x y).
  - intros [|y k] [|z m]; cbn; try done.
    destruct (cmp x y) eqn:E; try done.
    + apply Ex in E as <-. destruct (cmp x z); try done. apply Tl.
    + intros _ H. rewrite (Tx y z); [done|done|]. by destruct (cmp y z).
Qed.

Lemma option_compare_lawful {A} (cmp : A → A → comparison) o :
  (∀ a, o = Some a → lawful_at cmp a) → lawful_at (option_compare cmp) o.
Proof.
  intros H. destruct o as [a|].
  - destruct (H a eq_refl) as (E & An & T).
    split_and!; [intros []; cbn; try done; by intros ->%E
                |intros []; cbn; try done; apply An
                |intros [] []; cbn; try done; apply T].
  - split_and!; [by intros []|by intros []|by intros [] []].
Qed.

Lemma ascii_compare_lawful a : lawful_at Ascii.compare a.
Proof.
  unfold Ascii.compare. split_and!.
  - intros b H. apply N.compare_eq in H.
    by rewrite <- (ascii_N_embedding a), <- (ascii_N_embedding b), H.
  - intros b. apply N.compare_antisym.
  - intros b c H1 H2. rewrite N.compare_lt_iff in *. rewrite N.compare_gt_iff in H2. lia.
Qed.

Lemma string_compare_lawful s : lawful_at String.compare s.
Proof.
  induction s as [|a s (Es & As & Ts)]; split_and!.
  - by intros [|??].
  - by intros [|??].
  - by intros [|??] [|??].
  - intros b. apply String.compare_eq_iff.
  - intros b. apply String.compare_antisym.
  - destruct (ascii_compare_lawful a) as (Ea & Aa & Ta).
    intros [|y k] [|z m]; cbn; try done.
    destruct (Ascii.compare a y) eqn:E; try done.
    + apply Ea in E as <-. destruct (Ascii.compare a z); try done. apply Ts.
    + intros _ H. rewrite (Ta y z); [done|done|]. by destruct (Ascii.compare y z).
Qed.

Lemma Z_compare_lawful n : lawful_at Z.compare n.
Proof.
  split_and!.
  - intros b. apply Z.compare_eq.
  - intros b. apply Z.compare_antisym.
  - intros b c H1 H2. rewrite Z.compare_lt_iff in *. rewrite Z.compare_gt_iff in H2. lia.
Qed.

Lemma bool_compare_lawful b : lawful_at Bool.compare b.
Proof. split_and!; [by intros []; destruct b..|by intros [] []; destruct b]. Qed.

(** Induction on values, through arrays and maps. *)
Lemma FsValue_nested_ind (P : FsValue → Prop) :
  P VNull → (∀ b, P (VBool b)) → (∀ n, P (VInt n)) → (∀ s, P (VStr s)) →
  (∀ t, P (VTimestamp t)) → P VServerTimestamp →
  (∀ l, Forall P l → P (VArr l)) →
  (∀ m, Forall (λ e, P e.2) m → P (VMap m)) →
  ∀ v, P v.
Proof.
  intros HN HB HI HS HT HST HA HM.
  fix IH 1.
  intros [|b|n|s|t| |l|m];
    [exact HN|exact (HB b)|exact (HI n)|exact (HS s)|exact (HT t)|exact HST| |].
  - apply HA. induction l as [|v l IHl]; constructor; [apply IH|exact IHl].
  - apply HM. induction m as [|[k v] m IHm]; constructor; [apply IH|exact IHm].
Qed.

#[local] Ltac same_type_cases E An T :=
  split_and!; [intros []; cbn; try done; by intros ->%E
              |intros []; cbn; try done; apply An
              |intros [] []; cbn; try done; apply T].

Lemma value_compare_lawful v : lawful_at value_compare v.
Proof.
  induction v as [|b|n|s|t| |l IH|m IH] using FsValue_nested_ind.
  - split_and!; [by intros []|by intros []|by intros [] []].
  - destruct (bool_compare_lawful b) as (E & An & T). same_type_cases E An T.
  - destruct (Z_compare_lawful n) as (E & An & T). same_type_cases E An T.
  - destruct (string_compare_lawful s) as (E & An & T). same_type_cases E An T.
  - destruct (Z_compare_lawful t) as (E & An & T). same_type_cases E An T.
  - split_and!; [by intros []|by intros []|by intros [] []].
  - destruct (list_compare_lawful value_compare l IH) as (E & An & T).
    same_type_cases E An T.
  - assert (Forall (lawful_at (entry_compare value_compare)) m) as IH'.
    { eapply Forall_impl; [exact IH|]. intros [k v] H.
      apply (and_then_lawful String.compare value_compare); [apply string_compare_lawful|done]. }
    destruct (list_compare_lawful _ m IH') as (E & An & T).
    same_type_cases E An T.
Qed.

Lemma key_compare_lawful k : lawful_at key_compare k.
Proof.
  destruct k as [o i].
  apply (and_then_lawful (option_compare value_compare) String.compare).
  - apply option_compare_lawful. intros ? _. apply value_compare_lawful.
  - apply string_compare_lawful.
Qed.

Lemma key_compare_trans k1 k2 k3 :
  key_compare k1 k2 ≠ Gt → key_compare k2 k3 ≠ Gt → key_compare k1 k3 ≠ Gt.
Proof.
  destruct (key_compare_lawful k1) as (E & _ & T). intros H1 H2.
  destruct (key_compare k1 k2) eqn:E1; [|by rewrite (T k2 k3)|done].
  by apply E in E1 as <-.
Qed.

Lemma key_compare_total k1 k2 : key_compare k1 k2 ≠ Gt ∨ key_compare k2 k1 ≠ Gt.
Proof.
  destruct (key_compare_lawful k1) as (_ & An & _). rewrite (An k2).
  destruct (key_compare k1 k2); cbn; auto.
Qed.

(** ** The live feed *)

#[local] Instance doc_order_trans f dir : Transitive (doc_order f dir).
Proof.
  intros x y z. destruct dir; cbn; unfold doc_compare; intros H1 H2.
  - by eapply key_compare_trans.
  - by eapply key_compare_trans.
Qed.

#[local] Instance doc_order_total f dir : Total (doc_order f dir).
Proof.
  intros x y. destruct dir; cbn; unfold doc_compare.
  - apply key_compare_total.
  - apply key_compare_total.
Qed.

(** The descending order in plain terms: between two timestamps the later
    one comes first, and a timestamp never comes before a value of a type
    ordered above timestamps. *)
Lemma doc_order_desc_timestamps f d1 d2 t1 t2 :
  doc_order f Desc d1 d2 →
  d1.2 !! f = Some (VTimestamp t1) → d2.2 !! f = Some (VTimestamp t2) → (t2 ≤ t1)%Z.
Proof.
  unfold doc_order, doc_compare, key_compare, order_key. cbn [fst snd].
  intros H H1 H2. rewrite H1, H2 in H. cbn in H.
  destruct (t2 ?= t1)%Z eqn:E; try done.
  - apply Z.compare_eq in E. lia.
  - rewrite Z.compare_lt_iff in E. lia.
Qed.

Lemma doc_order_desc_above f d1 d2 t v :
  doc_order f Desc d1 d2 →
  d1.2 !! f = Some (VTimestamp t) → d2.2 !! f = Some v → above_timestamps v = false.
Proof.
  unfold doc_order, doc_compare, key_compare, order_key. cbn [fst snd].
  intros H H1 H2. rewrite H1, H2 in H. by destruct v.
Qed.

Lemma StronglySorted_lookup {A} (R : relation A) l i j x y :
  StronglySorted R l → (i < j)%nat → l !! i = Some x → l !! j = Some y → R x y.
Proof.
  intros Hs. revert i j. induction Hs as [|a l Hs IH Hall]; intros i j Hij Hi Hj; [done|].
  destruct j as [|j]; [lia|]. cbn in Hj. destruct i as [|i]; cbn in Hi.
  - simplify_eq. rewrite Forall_forall in Hall. apply Hall.
    by eapply list_elem_of_lookup_2.
  - apply (IH i j); [lia|done..].
Qed.

Lemma feed_query_run appId (c : Collection) :
  run_query (feed_query appId) c
  = take 100 (order_docs "timestamp" Desc (map_to_list c)).
Proof. done. Qed.

Lemma order_docs_sorted f dir docs :
  StronglySorted (doc_order f dir) (order_docs f dir docs).
Proof. apply StronglySorted_merge_sort; apply _. Qed.

Lemma order_docs_elem f dir (c : Collection) d :
  d ∈ order_docs f dir (map_to_list c) ↔ c !! d.1 = Some d.2 ∧ is_Some (d.2 !! f).
Proof.
  unfold order_docs. rewrite merge_sort_Permutation, list_elem_of_filter.
  rewrite elem_of_map_to_list'. tauto.
Qed.

(** What the server returns for the feed query: the documents of the
    collection that have a [timestamp] field, a hundred of them at most,
    in descending order, and none left out that comes before one
    returned. *)
Lemma feed_query_result appId (c : Collection) :
  let r := run_query (feed_query appId) c in
  length r = min 100 (with_field "timestamp" c) ∧
  StronglySorted (doc_order "timestamp" Desc) r ∧
  (∀ d, d ∈ r → c !! d.1 = Some d.2 ∧ is_Some (d.2 !! "timestamp")) ∧
  (∀ d d', c !! d.1 = Some d.2 → is_Some (d.2 !! "timestamp") →
           d ∉ r → d' ∈ r → doc_order "timestamp" Desc d' d).
Proof.
  intros r. subst r. rewrite feed_query_run.
  set (L := order_docs "timestamp" Desc (map_to_list c)).
  pose proof (order_docs_sorted "timestamp" Desc (map_to_list c)) as Hs. fold L in Hs.
  rewrite <- (take_drop 100 L) in Hs. split_and!.
  - rewrite length_take. f_equal. unfold L, order_docs, with_field.
    by rewrite merge_sort_Permutation.
  - by eapply StronglySorted_app_1_l.
  - intros d Hin%subseteq_take. by apply (order_docs_elem "timestamp" Desc).
  - intros d d' Hc Hk Hout Hin.
    assert (d ∈ L) as HL by (by apply (order_docs_elem "timestamp" Desc)).
    rewrite <- (take_drop 100 L) in HL. apply elem_of_app in HL as [?|Hd]; [done|].
    exact (StronglySorted_app_1_elem_of _ _ _ _ _ Hs Hin Hd).
Qed.

Lemma snapshotReceived_ok f docs w :
  Forall (λ d, timestamp_ok (d.2 !! "timestamp")) docs →
  snapshotReceived f docs w
  = (Normal tt, exec (setGlobalActivities (view_of f <$> docs)) w).
Proof.
  intros H. unfold snapshotReceived, mbind, M_bind.
  by rewrite mapM_to_activity_ok.
Qed.

Lemma timestamp_okb_spec o : timestamp_okb o = true ↔ timestamp_ok o.
Proof. destruct o as [[]|]; cbn; split; done. Qed.

Lemma good_snapshot_spec docs :
  good_snapshot docs = true ↔ Forall (λ d, timestamp_ok (d.2 !! "timestamp")) docs.
Proof.
  unfold good_snapshot. rewrite forallb_forall, Forall_forall.
  split; intros H d Hd.
  - apply timestamp_okb_spec, H. by apply list_elem_of_In.
  - apply timestamp_okb_spec, H. by apply list_elem_of_In.
Qed.

Lemma to_activity_throws f d w :
  timestamp_okb (d.2 !! "timestamp") = false →
  to_activity f d w = (Throw (TypeError "toDate is not a function"), w).
Proof.
  unfold to_activity, format_timestamp.
  destruct (d.2 !! "timestamp") as [[]|]; cbn; try done; intros _; by run_handler.
Qed.

Lemma mapM_to_activity_throws f docs w :
  good_snapshot docs = false →
  mapM (to_activity f) docs w = (Throw (TypeError "toDate is not a function"), w).
Proof.
  unfold good_snapshot. induction docs as [|d docs IH]; [done|].
  cbn [forallb mapM]. unfold mbind, M_bind.
  destruct (timestamp_okb (d.2 !! "timestamp")) eqn:E; cbn [andb].
  - intros H. rewrite to_activity_ok by by apply timestamp_okb_spec.
    fold (@mbind M _). unfold mbind, M_bind. by rewrite IH.
  - intros _. by rewrite to_activity_throws.
Qed.

Lemma snapshotReceived_exec f docs w :
  exec (snapshotReceived f docs) w =
    if good_snapshot docs
    then exec (setGlobalActivities (view_of f <$> docs)) w
    else w.
Proof.
  unfold exec at 1. destruct (good_snapshot docs) eqn:G.
  - by rewrite snapshotReceived_ok by by apply good_snapshot_spec.
  - unfold snapshotReceived, mbind, M_bind. by rewrite mapM_to_activity_throws.
Qed.

(** The fields of a list entry against those of its document. *)
Lemma view_of_lookup f (d : string * DocData) :
  (∀ k, k ≠ "timestamp" → k ≠ "id" → view_of f d !! k = d.2 !! k) ∧
  view_of f d !! "timestamp" = Some (VStr (shown_time f (d.2 !! "timestamp"))) ∧
  view_of f d !! "id" = Some (default (VStr d.1) (d.2 !! "id")).
Proof.
  unfold view_of. split_and!.
  - intros k Ht Hi. rewrite lookup_insert_ne by done.
    rewrite lookup_union, lookup_singleton_ne by done. by destruct (d.2 !! k).
  - by rewrite lookup_insert_eq.
  - rewrite lookup_insert_ne by done.
    rewrite lookup_union, lookup_singleton_eq. by destruct (d.2 !! "id").
Qed.

Lemma render_row_fields (a : Activity) r :
  render_row a = Normal r →
  react_children (a !! "content") = Some (row_content r) ∧
  row_badge r = (if truthy (a !! "is_admin") then "ADMIN" else "USER") ∧
  react_children (a !! "timestamp") = Some (row_time r) ∧
  ∃ u, a !! "userId" = Some (VStr u)
       ∧ row_user r = "User ID: " +:+ Js.substring0 10 u +:+ "...".
Proof.
  unfold render_row, row_element, mount_row.
  destruct (a !! "userId") as [[]|]; try done. cbn.
  destruct (react_children (a !! "content")); [|done].
  destruct (react_children (a !! "timestamp")); [|done].
  intros [= <-]. cbn. split_and!; try done. by eexists.
Qed.

Lemma render_row_ok (a : Activity) :
  has_text_userId a = true → displayable a = true → ∃ r, render_row a = Normal r.
Proof.
  unfold has_text_userId, displayable, render_row, row_element, mount_row.
  destruct (a !! "userId") as [[]|]; try done. cbn.
  destruct (react_children (a !! "content")); [|done].
  destruct (react_children (a !! "timestamp")); [|done]. by eexists.
Qed.

Lemma render_row_throws (a : Activity) :
  (has_text_userId a = false →
   render_row a = Throw (TypeError "activity.userId.substring is not a function")) ∧
  (has_text_userId a = true → displayable a = false →
   render_row a = Throw (Error "Objects are not valid as a React child")).
Proof.
  unfold has_text_userId, displayable, render_row, row_element, mount_row.
  destruct (a !! "userId") as [[]|]; split; try done; cbn; intros _.
  destruct (react_children (a !! "content")); [|done].
  by destruct (react_children (a !! "timestamp")).
Qed.

Lemma row_element_cases (a : Activity) :
  if has_text_userId a
  then ∃ e, row_element a = Normal e
  else row_element a = Throw (TypeError "activity.userId.substring is not a function").
Proof.
  unfold has_text_userId, row_element.
  destruct (a !! "userId") as [[]|]; try done. by eexists.
Qed.

Lemma row_elements_throw (l : list Activity) :
  match map_throwing row_element l with
  | Normal es => Forall (λ a, has_text_userId a = true) l ∧ length es = length l
  | Throw e =>
      e = TypeError "activity.userId.substring is not a function"
      ∧ ∃ a, a ∈ l ∧ has_text_userId a = false
  end.
Proof.
  induction l as [|a l IH]; cbn [map_throwing]; [by split|].
  pose proof (row_element_cases a) as Ha.
  destruct (has_text_userId a) eqn:E.
  - destruct Ha as [e ->].
    destruct (map_throwing row_element l) as [es|x].
    + destruct IH as [IH Hlen]. split; [by constructor|by cbn; rewrite Hlen].
    + destruct IH as (-> & a' & Hin & Ha'). split; [done|].
      exists a'. split; [by right|done].
  - rewrite Ha. split; [done|]. exists a. split; [by left|done].
Qed.

Lemma render_rows_cons (a : Activity) l r rs :
  render_rows (a :: l) = Normal (r :: rs) ↔
  render_row a = Normal r ∧ render_rows l = Normal rs.
Proof.
  unfold render_rows, render_row. cbn [map_throwing].
  destruct (row_element a) as [e|x]; [|by split; [|intros [? _]]].
  destruct (map_throwing row_element l) as [es|x]; [|by split; [|intros [_ ?]]].
  cbn [map_throwing].
  destruct (mount_row e) as [r'|x]; [|by split; [|intros [? _]]].
  destruct (map_throwing mount_row es) as [rs'|x]; [|by split; [|intros [_ ?]]].
  split; [by intros [= -> ->]|by intros [[= ->] [= ->]]].
Qed.

Lemma render_rows_nil_inv (a : Activity) l : render_rows (a :: l) ≠ Normal [].
Proof.
  unfold render_rows. cbn [map_throwing].
  destruct (row_element a) as [e|x]; [|done].
  destruct (map_throwing row_element l) as [es|x]; [|done]. cbn [map_throwing].
  destruct (mount_row e) as [r'|x]; [|done].
  by destruct (map_throwing mount_row es).
Qed.

Lemma render_rows_Forall2 (l : list Activity) rows :
  render_rows l = Normal rows ↔ Forall2 (λ a r, render_row a = Normal r) l rows.
Proof.
  revert rows. induction l as [|a l IH]; intros rows.
  - split; [intros [= <-]; constructor|by intros ->%Forall2_nil_inv_l].
  - destruct rows as [|r rs].
    + split; [by intros ?%render_rows_nil_inv|by intros ?%Forall2_nil_inv_r].
    + rewrite render_rows_cons, IH, Forall2_cons. tauto.
Qed.

Lemma render_rows_ok (l : list Activity) :
  Forall (λ a, has_text_userId a = true ∧ displayable a = true) l →
  ∃ rows, render_rows l = Normal rows.
Proof.
  induction 1 as [|a l [Hu Hd] _ (rows & Hr)]; [by exists []|].
  destruct (render_row_ok a Hu Hd) as [r Ha].
  exists (r :: rows). by apply render_rows_cons.
Qed.

Lemma mount_rows_throw es e :
  map_throwing mount_row es = Throw e →
  e = Error "Objects are not valid as a React child".
Proof.
  induction es as [|x es IH]; cbn [map_throwing]; [done|].
  assert ((∃ r, mount_row x = Normal r) ∨
          mount_row x = Throw (Error "Objects are not valid as a React child")) as [[r ->]| ->].
  { unfold mount_row. destruct (react_children (el_content x)); [|by right].
    destruct (react_children (el_time x)); [left; by eexists|by right]. }
  - destruct (map_throwing mount_row es); [done|]. intros [= <-]. by apply IH.
  - by intros [= <-].
Qed.

Lemma render_rows_throw_kind (l : list Activity) e :
  render_rows l = Throw e →
  (e = TypeError "activity.userId.substring is not a function"
   ∧ ∃ a, a ∈ l ∧ has_text_userId a = false) ∨
  (e = Error "Objects are not valid as a React child"
   ∧ Forall (λ a, has_text_userId a = true) l).
Proof.
  unfold render_rows. pose proof (row_elements_throw l) as H.
  destruct (map_throwing row_element l) as [es|x].
  - intros He%mount_rows_throw. right. by destruct H.
  - intros [= <-]. by left.
Qed.

(** When the list renders, which exception when it does not. *)
Lemma render_rows_throws (l : list Activity) :
  ((∃ e, render_rows l = Throw e) ↔
     ∃ a, a ∈ l ∧ (has_text_userId a = false ∨ displayable a = false)) ∧
  ((∃ a, a ∈ l ∧ has_text_userId a = false) →
   render_rows l = Throw (TypeError "activity.userId.substring is not a function")) ∧
  (Forall (λ a, has_text_userId a = true) l →
   (∃ a, a ∈ l ∧ displayable a = false) →
   render_rows l = Throw (Error "Objects are not valid as a React child")).
Proof.
  assert (∀ a, a ∈ l → (has_text_userId a = false ∨ displayable a = false) →
               ∃ e, render_rows l = Throw e) as Hthrow.
  { intros a Hin Ha. destruct (render_rows l) as [rows|e] eqn:E; [|by eexists].
    apply render_rows_Forall2 in E.
    apply list_elem_of_lookup_1 in Hin as [i Hi].
    destruct (Forall2_lookup_l _ _ _ _ _ E Hi) as (r & _ & Hr).
    destruct (render_row_throws a) as [H1 H2].
    destruct (has_text_userId a) eqn:E1.
    - destruct Ha as [?|Ha]; [done|]. rewrite H2 in Hr; done.
    - rewrite H1 in Hr; done. }
  assert ((∃ a, a ∈ l ∧ has_text_userId a = false) →
          render_rows l = Throw (TypeError "activity.userId.substring is not a function"))
    as Htype.
  { intros (a & Hin & Ha). destruct (Hthrow a Hin) as [e He]; [by left|].
    destruct (render_rows_throw_kind l e He) as [[-> _]|[_ Hall]]; [done|].
    rewrite Forall_forall in Hall. apply Hall in Hin. congruence. }
  assert (Forall (λ a, has_text_userId a = true) l →
          (∃ a, a ∈ l ∧ displayable a = false) →
          render_rows l = Throw (Error "Objects are not valid as a React child"))
    as Herr.
  { intros Hall (a & Hin & Ha). destruct (Hthrow a Hin) as [e He]; [by right|].
    destruct (render_rows_throw_kind l e He) as [(_ & x & Hx & Hx')|[-> _]]; [|done].
    rewrite Forall_forall in Hall. apply Hall in Hx. congruence. }
  split_and!; [|done|done]. split.
  - intros [e He].
    destruct (decide (Forall (λ a, has_text_userId a = true ∧ displayable a = true) l))
      as [Hall|Hnot].
    + destruct (render_rows_ok l Hall) as [rows Hr]. congruence.
    + apply not_Forall_Exists in Hnot; [|apply _].
      apply Exists_exists in Hnot as (a & Hin & Ha). exists a. split; [done|].
      unfold compose in Ha.
      destruct (has_text_userId a), (displayable a); auto. exfalso. apply Ha. by split.
  - intros (a & Hin & Ha). by apply (Hthrow a).
Qed.

Lemma view_of_row_ok f (d : string * DocData) :
  (has_text_userId (view_of f d) = true ↔ ∃ u, d.2 !! "userId" = Some (VStr u)) ∧
  (displayable (view_of f d) = true ↔ is_Some (react_children (d.2 !! "content"))).
Proof.
  destruct (view_of_lookup f d) as (Hk & Ht & _).
  unfold has_text_userId, displayable. rewrite Ht, !Hk by done. cbn. split.
  - destruct (d.2 !! "userId") as [[]|]; split; try done; try by intros [? ?].
    intros _. by eexists.
  - destruct (react_children (d.2 !! "content")); split; try done; by intros [? ?].
Qed.

(** C5 (amended).  The feed subscription asks for the shared activity
    collection ordered by [timestamp] descending with limit 100.  Under
    the backend's order the answer holds the records that have a
    [timestamp] field, a hundred of them if there are more, in descending
    order and none left out that comes before one returned; among
    timestamps the later comes first, and a value of a type ordered above
    timestamps (text, an array, a map) never follows a timestamp.  For
    every snapshot delivered whose timestamp fields are absent, null or
    timestamps, the listener replaces [globalActivities] by one entry per
    record of the snapshot, in the snapshot's order, each entry holding the
    record's fields with the timestamp formatted for display; the admin
    page then shows one row per record, in that order, with that record's
    content, admin badge, user id and time, when every record has a text
    [userId] and a [content] the page can show, and throws otherwise; the
    user page shows no list.  A snapshot with any other timestamp value
    makes the listener throw and leaves everything as it was. *)
Theorem feed_shows_snapshot appId f (c : Collection) (docs : list (string * DocData)) w :
  let q := feed_query appId in
  let r := run_query q c in
  let w' := exec (snapshotReceived f docs) w in
  let shown (d : string * DocData) :=
    (∃ u, d.2 !! "userId" = Some (VStr u)) ∧ is_Some (react_children (d.2 !! "content")) in
  (q_path q = ACTIVITIES_COLLECTION_PATH appId ∧
   q_orderBy q = Some ("timestamp", Desc) ∧ q_limit q = Some 100) ∧
  (length r = min 100 (with_field "timestamp" c) ∧
   StronglySorted (doc_order "timestamp" Desc) r ∧
   (∀ d, d ∈ r → c !! d.1 = Some d.2 ∧ is_Some (d.2 !! "timestamp")) ∧
   (∀ d d', c !! d.1 = Some d.2 → is_Some (d.2 !! "timestamp") →
            d ∉ r → d' ∈ r → doc_order "timestamp" Desc d' d) ∧
   (∀ i j d1 d2, (i < j)%nat → r !! i = Some d1 → r !! j = Some d2 →
      (∀ t1 t2, d1.2 !! "timestamp" = Some (VTimestamp t1) →
                d2.2 !! "timestamp" = Some (VTimestamp t2) → (t2 ≤ t1)%Z) ∧
      (∀ t v, d1.2 !! "timestamp" = Some (VTimestamp t) →
              d2.2 !! "timestamp" = Some v → above_timestamps v = false))) ∧
  (Forall (λ d, timestamp_ok (d.2 !! "timestamp")) docs →
   completion (snapshotReceived f docs) w = Normal tt ∧
   globalActivities (ui w') = view_of f <$> docs ∧
   length (globalActivities (ui w')) = length docs ∧
   (∀ i d, docs !! i = Some d →
      ∃ a, globalActivities (ui w') !! i = Some a ∧
           (∀ k, k ≠ "timestamp" → k ≠ "id" → a !! k = d.2 !! k) ∧
           a !! "timestamp" = Some (VStr (shown_time f (d.2 !! "timestamp"))) ∧
           a !! "id" = Some (default (VStr d.1) (d.2 !! "id"))) ∧
   (isAdmin (ui w) = true → loading (ui w) = false →
    (Forall shown docs →
     ∃ ul rl name rows,
       render appId (ui w') = Normal (Page ul rl (AdminDashboard name rows)) ∧
       length rows = length docs ∧
       ∀ i d, docs !! i = Some d →
         ∃ r, rows !! i = Some r ∧
              react_children (d.2 !! "content") = Some (row_content r) ∧
              row_badge r = (if truthy (d.2 !! "is_admin") then "ADMIN" else "USER") ∧
              (∃ u, d.2 !! "userId" = Some (VStr u)
                    ∧ row_user r = "User ID: " +:+ Js.substring0 10 u +:+ "...") ∧
              row_time r = [Text (shown_time f (d.2 !! "timestamp"))]) ∧
    (¬ Forall shown docs → ∃ e, render appId (ui w') = Throw e)) ∧
   (isAdmin (ui w) = false → loading (ui w) = false →
    render appId (ui w') =
      Normal (Page (user_label (ui w)) "Standard User"
                (UserDashboard (logMessage (ui w)) (button_disabled (ui w)))))) ∧
  (¬ Forall (λ d, timestamp_ok (d.2 !! "timestamp")) docs →
   snapshotReceived f docs w = (Throw (TypeError "toDate is not a function"), w)).
Proof.
  intros q r w' shown. subst q r w'. split; [done|]. split; [|split].
  { destruct (feed_query_result appId c) as (Hlen & Hs & He & Hout).
    split_and!; try done. intros i j d1 d2 Hij H1 H2.
    pose proof (StronglySorted_lookup _ _ _ _ _ _ Hs Hij H1 H2) as Ho. split.
    - intros t1 t2. by apply doc_order_desc_timestamps.
    - intros t v. by apply doc_order_desc_above. }
  2:{ intros Hbad. unfold snapshotReceived, mbind, M_bind.
      rewrite mapM_to_activity_throws; [done|].
      destruct (good_snapshot docs) eqn:G; [|done].
      by apply good_snapshot_spec in G. }
  intros Hts. unfold exec, completion.
  rewrite snapshotReceived_ok by done. cbn [fst snd].
  set (w1 := exec (setGlobalActivities (view_of f <$> docs)) w).
  assert (globalActivities (ui w1) = view_of f <$> docs) as Hg by by run_handler.
  assert (loading (ui w1) = loading (ui w) ∧ isAdmin (ui w1) = isAdmin (ui w) ∧
          userId (ui w1) = userId (ui w) ∧ logMessage (ui w1) = logMessage (ui w))
    as (Hl1 & Ha1 & Hu1 & Hm1) by by run_handler.
  fold w1. rewrite Hg. split_and!; [done|done|by rewrite length_fmap| | |].
  - intros i d Hd. exists (view_of f d). rewrite list_lookup_fmap, Hd.
    split; [done|]. apply view_of_lookup.
  - intros Hadm Hload. unfold render. rewrite Hg, Hl1, Ha1, Hload, Hadm. split.
    + intros Hu.
      destruct (render_rows_ok (view_of f <$> docs)) as (rows & Hr).
      { apply Forall_fmap. eapply Forall_impl; [exact Hu|].
        intros d [Hd1 Hd2]. cbn. destruct (view_of_row_ok f d) as [H1 H2].
        split; [by apply H1|by apply H2]. }
      rewrite Hr. apply render_rows_Forall2 in Hr as HF.
      eexists _, _, _, rows. split_and!; [done| |].
      * apply Forall2_length in HF. by rewrite <- HF, length_fmap.
      * intros i d Hd.
        assert ((view_of f <$> docs) !! i = Some (view_of f d)) as Hi
          by (by rewrite list_lookup_fmap, Hd).
        destruct (Forall2_lookup_l _ _ _ _ _ HF Hi) as (r & Hri & Hrow).
        exists r. split; [done|].
        destruct (render_row_fields _ _ Hrow) as (Hc & Hb & Ht & u & Hu' & Hru).
        destruct (view_of_lookup f d) as (Hk & Hts' & _).
        rewrite Hb. rewrite Hts' in Ht. rewrite !Hk in * by done.
        split_and!; try done; [by exists u|]. cbn in Ht. congruence.
    + intros Hnot.
      assert (∃ e, render_rows (view_of f <$> docs) = Throw e) as [e ->]; [|by eexists].
      apply render_rows_throws.
      destruct (decide (Forall (λ a, has_text_userId a = true ∧ displayable a = true)
                          (view_of f <$> docs))) as [Hall|Hno].
      { exfalso. apply Hnot. apply Forall_fmap in Hall.
        eapply Forall_impl; [exact Hall|]. intros d [Hd1 Hd2]. cbn in Hd1, Hd2.
        destruct (view_of_row_ok f d) as [H1 H2]. split; [by apply H1|by apply H2]. }
      apply not_Forall_Exists in Hno; [|apply _].
      apply Exists_exists in Hno as (a & Hin & Ha). exists a. split; [done|].
      unfold compose in Ha.
      destruct (has_text_userId a), (displayable a); auto. exfalso. apply Ha. by split.
  - intros Hadm Hload. unfold render, role_label, user_label.
    by rewrite Hl1, Ha1, Hu1, Hm1, Hload, Hadm.
Qed.

(** ** Concrete instances *)

Lemma checkAdminStatus_membership_witness :
  1 ≠ 0 ∧ "alice" ≠ "" ∧
  isAdmin (ui (exec (checkAdminStatus "app" 1 (Resolved (Some admins_example)) "alice")
                 (initial_world ∅ 0))) = true.
Proof.
  split; [lia|]. split; [discriminate|].
  apply (checkAdminStatus_membership "app" 1 (Resolved (Some admins_example)) "alice"
           (initial_world ∅ 0)).
  - lia.
  - discriminate.
  - intros data [= <-]. vm_compute. exact I.
  - exists admins_example. split; [reflexivity|]. vm_compute. apply list_elem_of_here.
Defined.

Lemma logUserActivity_guarded_noop_witness :
  Js.trim "   " = "" ∧
  logUserActivity "app" 1
    {| userId := Some "u1"; isAuthReady := true; isAdmin := false;
       loading := false; globalActivities := []; logMessage := "   " |}
    "AAAAAAAAAAAAAAAAAAAA" true posting_world
  = (Normal tt, posting_world).
Proof.
  split; [reflexivity|].
  apply logUserActivity_guarded_noop. right. right. reflexivity.
Defined.

Lemma logUserActivity_success_witness :
  1 ≠ 0 ∧ Js.trim (logMessage posting_state) = "hello" ∧
  logMessage (ui (exec (logUserActivity "app" 1 posting_state "AAAAAAAAAAAAAAAAAAAA" true)
                    posting_world)) = "" ∧
  ∃ d, activities (exec (logUserActivity "app" 1 posting_state "AAAAAAAAAAAAAAAAAAAA" true)
                     posting_world) !! "AAAAAAAAAAAAAAAAAAAA" = Some d
       ∧ d !! "content" = Some (VStr "hello").
Proof.
  split; [lia|]. split; [reflexivity|].
  destruct (logUserActivity_success "app" 1 posting_state "AAAAAAAAAAAAAAAAAAAA"
              posting_world) as (_ & _ & _ & _ & _ & Hd & Hm).
  - lia.
  - exists "u1". split; [reflexivity|discriminate].
  - discriminate.
  - split; [exact Hm|exact Hd].
Defined.

Lemma created_records_fields_witness :
  step "app" None 1 clock (Click "AAAAAAAAAAAAAAAAAAAA" true) posting_world
  = Some (exec (logUserActivity "app" 1 posting_state "AAAAAAAAAAAAAAAAAAAA" true)
            posting_world) ∧
  has_activity_fields (activity_payload posting_state).
Proof.
  split; [reflexivity|].
  destruct (created_records_fields "app" None 1 clock
              (Click "AAAAAAAAAAAAAAAAAAAA" true) posting_world
              (exec (logUserActivity "app" 1 posting_state "AAAAAAAAAAAAAAAAAAAA" true)
                 posting_world)
              (ACTIVITIES_COLLECTION_PATH "app") "AAAAAAAAAAAAAAAAAAAA"
              (activity_payload posting_state))
    as [(_ & _ & H & _)|(Heff & _)].
  - reflexivity.
  - vm_compute. apply list_elem_of_here.
  - exact H.
  - destruct Heff.
Defined.

Lemma seed_written_iff_collection_empty_witness :
  1 ≠ 0 ∧ isAuthReady ready_state = true ∧
  SetDoc (ACTIVITIES_COLLECTION_PATH "app") "system-init" initialActivity
    ∈ emitted (feedEffect "app" 1 ready_state true true) (initial_world ∅ 0).
Proof.
  split; [lia|]. split; [reflexivity|].
  destruct (seed_written_iff_collection_empty "app" None 1 clock ready_state true true
              (initial_world ∅ 0)) as (_ & Hiff & _).
  - lia.
  - reflexivity.
  - apply Hiff; reflexivity.
Defined.

Lemma existing_records_unchanged_witness :
  fresh_for (Click "AAAAAAAAAAAAAAAAAAAA" true) posting_world ∧
  activities (exec (logUserActivity "app" 1 posting_state "AAAAAAAAAAAAAAAAAAAA" true)
                posting_world) !! "old" = Some old_record.
Proof.
  split; [reflexivity|].
  destruct (existing_records_unchanged "app" None 1 clock
              (Click "AAAAAAAAAAAAAAAAAAAA" true) posting_world
              (exec (logUserActivity "app" 1 posting_state "AAAAAAAAAAAAAAAAAAAA" true)
                 posting_world)) as (_ & Hkeep & _).
  - reflexivity.
  - reflexivity.
  - apply Hkeep. reflexivity.
Defined.

Lemma sign_in_exactly_once_witness :
  sign_in_calls (emitted (authStateChanged "app" (Some "tok") 1 None true Failed)
                   (initial_world ∅ 0))
  = [SignInWithCustomToken "tok"].
Proof.
  apply (sign_in_exactly_once "app" (Some "tok") 1 true Failed (initial_world ∅ 0)).
  - reflexivity.
  - discriminate.
Defined.

Lemma failed_sign_in_proceeds_as_anonymous_witness :
  ∃ w2 d,
    run "app" None 1 clock [Change "hello"; Click "AAAAAAAAAAAAAAAAAAAA" true]
      (exec (authStateChanged "app" None 1 None false Failed) (initial_world ∅ 0))
    = Some w2 ∧
    activities w2 !! "AAAAAAAAAAAAAAAAAAAA" = Some d ∧
    d !! "userId" = Some (VStr "anonymous").
Proof.
  apply (failed_sign_in_proceeds_as_anonymous "app" None 1 clock Failed
           (initial_world ∅ 0)).
  - lia.
  - reflexivity.
  - discriminate.
  - discriminate.
  - reflexivity.
Defined.

Lemma failures_caught_and_contained_witness :
  logMessage (ui (exec (logUserActivity "app" 1 posting_state "AAAAAAAAAAAAAAAAAAAA" false)
                    posting_world)) = "Error logging activity." ∧
  activities (exec (logUserActivity "app" 1 posting_state "AAAAAAAAAAAAAAAAAAAA" false)
                posting_world) = activities posting_world.
Proof.
  destruct (failures_caught_and_contained "app" None 1 posting_world)
    as (_ & _ & _ & Hw).
  destruct (Hw posting_state "AAAAAAAAAAAAAAAAAAAA") as (_ & _ & _ & Hm & Ha).
  - reflexivity.
  - split; [exact Hm|exact Ha].
Defined.

Lemma feed_shows_snapshot_witness :
  Forall (λ d : string * DocData, timestamp_ok (d.2 !! "timestamp")) snapshot_example ∧
  length (globalActivities (ui (exec (snapshotReceived clock snapshot_example)
                                  posting_world))) = 2.
Proof.
  assert (Forall (λ d : string * DocData, timestamp_ok (d.2 !! "timestamp"))
            snapshot_example) as Hts.
  { repeat constructor. }
  split; [exact Hts|].
  destruct (feed_shows_snapshot "app" clock ∅ snapshot_example posting_world)
    as (_ & _ & Hs & _).
  destruct (Hs Hts) as (_ & _ & Hlen & _). exact Hlen.
Defined.

(** C5, a snapshot that is delivered and not shown.  In a collection
    where one record's timestamp is text, the feed query returns that
    record ahead of the dated one; delivered to an admin's page, the
    snapshot makes the listener throw, and the page goes on showing an
    empty list for a snapshot of two records. *)
Lemma text_timestamp_snapshot_not_shown :
  let r := run_query (feed_query "app") mixed_collection in
  let w' := exec (snapshotReceived clock r) admin_world in
  r = [("x", imported_record); ("old", old_record)] ∧
  enabled (SnapshotReceived r) admin_world = true ∧
  completion (snapshotReceived clock r) admin_world
  = Throw (TypeError "toDate is not a function") ∧
  globalActivities (ui w') = [] ∧
  render "app" (ui w')
  = Normal (Page "u1" "Administrator" (AdminDashboard (Some "app_activities") [])).
Proof.
  cbn zeta.
  assert (run_query (feed_query "app") mixed_collection
          = [("x", imported_record); ("old", old_record)]) as ->
    by (vm_compute; reflexivity).
  split_and!; reflexivity.
Qed.

(** A few evaluations. *)

Example trim_both_ends : Js.trim "  hi  there  " = "hi  there".
Proof. reflexivity. Qed.

Example trim_blank : Js.trim "   " = "".
Proof. reflexivity. Qed.

Example button_disabled_while_logging :
  button_disabled {| userId := Some "u1"; isAuthReady := true; isAdmin := false;
                     loading := false; globalActivities := [];
                     logMessage := "Logging..." |} = true.
Proof. reflexivity. Qed.

Example last_segment_of_path :
  Js.last_segment (ACTIVITIES_COLLECTION_PATH "app") = Some "app_activities".
Proof. reflexivity. Qed.

Example feed_query_orders_latest_first :
  fst <$> run_query (feed_query "app") (list_to_map snapshot_example) = ["b"; "old"].
Proof. vm_compute. reflexivity. Qed.

Example undated_record_not_returned :
  run_query (feed_query "app") {["n" := <["content" := VStr "no date"]> ∅]} = [].
Proof. vm_compute. reflexivity. Qed.

Example value_order_across_types :
  value_compare (VTimestamp 9) (VStr "") = Lt ∧
  value_compare (VInt 9) (VTimestamp 0) = Lt ∧
  value_compare (VArr [VInt 1]) (VArr [VInt 1; VNull]) = Lt ∧
  value_compare (sort_fields (VMap [("b", VInt 1); ("a", VInt 2)]))
                (sort_fields (VMap [("a", VInt 2); ("c", VInt 0)])) = Lt.
Proof. split_and!; vm_compute; reflexivity. Qed.

Example map_content_is_refused :
  render_row (<["content" := VMap [("text", VStr "hi")]]> (<["userId" := VStr "u1"]> ∅))
  = Throw (Error "Objects are not valid as a React child") ∧
  render_row (<["content" := VArr [VStr "a"; VInt 1; VNull]]> (<["userId" := VStr "u1"]> ∅))
  = Normal {| row_content := [Text "a"; Number 1]; row_badge := "USER";
              row_user := "User ID: u1..."; row_time := [] |}.
Proof. split; reflexivity. Qed.

Example auto_id_shape : is_auto_id "AAAAAAAAAAAAAAAAAAAA" = true ∧ is_auto_id "system-init" = false.
Proof. split; reflexivity. Qed.

(* ===================================================================== *)
(** * Further properties *)
(* ===================================================================== *)

(** ** Snapshots the listener cannot format *)

(** X4.  One record whose timestamp field is neither absent, null nor a
    timestamp makes the listener throw a TypeError before it sets
    anything: the delivery is lost as a whole and the world, the list on
    display included, is exactly as before.  The subscription's error
    callback only writes one console line. *)
Theorem snapshot_with_unreadable_timestamp f docs w :
  good_snapshot docs = false →
  snapshotReceived f docs w = (Throw (TypeError "toDate is not a function"), w) ∧
  (∀ e, completion (snapshotFailed e) w = Normal tt ∧
        ui (exec (snapshotFailed e) w) = ui w ∧
        activities (exec (snapshotFailed e) w) = activities w ∧
        emitted (snapshotFailed e) w
        = [ConsoleError "Error fetching global activities:" (Some e)]).
Proof.
  intros Hbad. split.
  - unfold snapshotReceived, mbind, M_bind. by rewrite mapM_to_activity_throws.
  - intros e. unfold snapshotFailed. by run_handler.
Qed.

(** X5.  After any series of deliveries the list on display is that of
    the last snapshot the listener could format (the earlier list when
    there is none): entries are replaced, never accumulated; and the
    deliveries change nothing else, neither the other state cells, nor the
    collection, nor the trace. *)
Theorem last_readable_snapshot_is_shown f snaps w :
  let w' := deliver f snaps w in
  globalActivities (ui w') = shown_after f snaps (globalActivities (ui w)) ∧
  userId (ui w') = userId (ui w) ∧ isAuthReady (ui w') = isAuthReady (ui w) ∧
  isAdmin (ui w') = isAdmin (ui w) ∧ loading (ui w') = loading (ui w) ∧
  logMessage (ui w') = logMessage (ui w) ∧
  activities w' = activities w ∧ trace w' = trace w.
Proof.
  cbn zeta. unfold deliver, shown_after. revert w.
  induction snaps as [|docs snaps IH]; intros w; [done|].
  cbn [fold_left]. rewrite snapshotReceived_exec.
  destruct (good_snapshot docs).
  - destruct (IH (exec (setGlobalActivities (view_of f <$> docs)) w))
      as (-> & -> & -> & -> & -> & -> & -> & ->).
    by run_handler.
  - apply IH.
Qed.

(** ** Rendering *)

(** X6.  Rendering throws on the admin dashboard only (loading over,
    [isAdmin] true), and there in two situations.  Some entry of the list
    has no text [userId]: [substring] is called on it while the rows are
    built, a TypeError.  Or every entry has one, and some entry's
    [content] (or [timestamp]) is an object the page cannot show, a map, a
    timestamp or an array holding one: the page refuses it with an error.
    While loading the connecting screen is returned, and the user
    dashboard always renders, showing the message typed and the button
    state. *)
Theorem render_throws_iff appId s :
  ((∃ e, render appId s = Throw e) ↔
     loading s = false ∧ isAdmin s = true ∧
     ∃ a, a ∈ globalActivities s ∧
          (has_text_userId a = false ∨ displayable a = false)) ∧
  (loading s = false → isAdmin s = true →
   ((∃ a, a ∈ globalActivities s ∧ has_text_userId a = false) →
    render appId s = Throw (TypeError "activity.userId.substring is not a function")) ∧
   (Forall (λ a, has_text_userId a = true) (globalActivities s) →
    (∃ a, a ∈ globalActivities s ∧ displayable a = false) →
    render appId s = Throw (Error "Objects are not valid as a React child"))) ∧
  (loading s = true → render appId s = Normal Connecting) ∧
  (loading s = false → isAdmin s = false →
   render appId s =
     Normal (Page (user_label s) "Standard User"
               (UserDashboard (logMessage s) (button_disabled s)))).
Proof.
  destruct (render_rows_throws (globalActivities s)) as (Hiff & Htype & Herr).
  unfold render, role_label. split_and!.
  - destruct (loading s); [split; [by intros [? ?]|by intros [? _]]|].
    destruct (isAdmin s); [|split; [by intros [? ?]|by intros (_ & ? & _)]].
    rewrite <- Hiff.
    destruct (render_rows (globalActivities s)) as [rs|e].
    + split; [by intros [? ?]|]. by intros (_ & _ & ? & ?).
    + split; [|by eexists]. intros _. split_and!; try done. by eexists.
  - intros -> ->. split.
    + intros H. by rewrite (Htype H).
    + intros H1 H2. by rewrite (Herr H1 H2).
  - by intros ->.
  - by intros -> ->.
Qed.

(** ** From a write to the screen *)

(** X7.  Every record this program writes can be displayed.  What the
    server stores for it has the server's time as its timestamp, so the
    listener formats it; and the admin row made from it renders, showing
    the record's content, the first ten characters of its user id, and the
    badge that follows its [is_admin] field (USER for the seed record,
    which has none). *)
Theorem written_records_display appId token keys f a w w' p i d :
  step appId token keys f a w = Some w' →
  SetDoc p i d ∈ emitted (handler appId token keys f a w) w →
  let stored := resolve (server_time w) d in
  stored !! "timestamp" = Some (VTimestamp (server_time w)) ∧
  good_snapshot [(i, stored)] = true ∧
  ∃ u c r,
    d !! "userId" = Some (VStr u) ∧
    d !! "content" = Some (VStr c) ∧
    render_row (view_of f (i, stored)) = Normal r ∧
    row_content r = [Text c] ∧
    row_user r = "User ID: " +:+ Js.substring0 10 u +:+ "..." ∧
    row_badge r = (if truthy (d !! "is_admin") then "ADMIN" else "USER") ∧
    row_time r = [Text (shown_time f (Some (VTimestamp (server_time w))))].
Proof.
  intros Hs Hin stored.
  destruct (step_summary _ _ _ _ _ _ _ Hs) as (l & Ht & _ & Hall & _).
  rewrite (step_emitted _ _ _ _ _ _ _ _ Hs Ht) in Hin.
  assert (d !! "timestamp" = Some VServerTimestamp ∧
          (∃ u, d !! "userId" = Some (VStr u)) ∧
          (∃ c, d !! "content" = Some (VStr c)) ∧
          (d !! "is_admin" = None ∨ ∃ b, d !! "is_admin" = Some (VBool b)))
    as (Hts & (u & Hu) & (c & Hc) & Hadm).
  { destruct (Hall p i d Hin) as (_ & [(_ & -> & _)|(ok & _ & -> & _ & G)]).
    - destruct initialActivity_lookup as (? & ? & ? & ? & _).
      split_and!; eauto.
    - destruct (activity_payload_lookup (ui w)) as (? & ? & Hu & ? & _).
      apply guard_false_iff in G as (_ & (u & Hid & _) & _). rewrite Hid in Hu.
      split_and!; eauto. }
  assert (stored !! "timestamp" = Some (VTimestamp (server_time w))) as Hst.
  { subst stored. by rewrite resolve_lookup, Hts. }
  split; [done|]. split.
  { cbn. by rewrite Hst. }
  destruct (view_of_lookup f (i, stored)) as (Hk & Hvt & _).
  cbn [snd] in Hk, Hvt.
  exists u, c. unfold render_row, row_element, mount_row. rewrite !Hk by done. rewrite Hvt, Hst.
  subst stored. rewrite !resolve_lookup, Hu, Hc.
  cbn [fmap option_fmap option_map resolve_value el_content el_time el_badge el_user
       react_children react_child].
  eexists. split_and!; try done. cbn [row_badge].
  destruct Hadm as [-> | [b ->]]; by cbn.
Qed.

(** ** A failed write and the next click *)

(** X8.  A failed write leaves its error text in the message cell, which
    is also the text field: the button is enabled again, and pressing it
    without editing posts a record whose content is that error text. *)
Theorem click_after_failure_posts_error_text appId token keys f w id1 id2 :
  keys ≠ 0 →
  (∃ u, userId (ui w) = Some u ∧ u ≠ "") →
  enabled (Click id1 false) w = true →
  is_auto_id id2 = true →
  ∃ w1 w2 d,
    step appId token keys f (Click id1 false) w = Some w1 ∧
    logMessage (ui w1) = "Error logging activity." ∧
    button_disabled (ui w1) = false ∧
    step appId token keys f (Click id2 true) w1 = Some w2 ∧
    activities w2 !! id2 = Some d ∧
    d !! "content" = Some (VStr "Error logging activity.") ∧
    logMessage (ui w2) = "".
Proof.
  intros Hk (u & Hu & Hne) En Hid2.
  assert (user_dashboard_shown (ui w) = true ∧ button_disabled (ui w) = false) as [Hshown Hbtn].
  { cbn [enabled] in En. apply andb_true_iff in En as [En _].
    apply andb_true_iff in En as [? ?%negb_true_iff]. done. }
  assert (logUserActivity_guard keys (ui w) = false) as G.
  { apply guard_false_iff. split_and!; [done|by exists u|].
    unfold button_disabled in Hbtn. apply orb_false_iff in Hbtn as [Hb _].
    apply negb_false_iff in Hb. by apply truthy_string_true. }
  set (w1 := exec (logUserActivity appId keys (ui w) id1 false) w).
  destruct (logUserActivity_world appId keys (ui w) id1 false w)
    as (Hu1 & Hr1 & Ha1 & Hl1 & Hg1 & Hm1 & _).
  cbn zeta in *. fold w1 in Hu1, Hr1, Ha1, Hl1, Hg1, Hm1.
  rewrite G in Hm1. cbn [negb] in Hm1.
  assert (user_dashboard_shown (ui w1) = true) as Hshown1.
  { unfold user_dashboard_shown in *. by rewrite Hl1, Ha1. }
  assert (button_disabled (ui w1) = false) as Hbtn1.
  { unfold button_disabled. by rewrite Hm1. }
  assert (logUserActivity_guard keys (ui w1) = false) as G1.
  { apply guard_false_iff. split_and!; [done|exists u; by rewrite Hu1|by rewrite Hm1]. }
  set (w2 := exec (logUserActivity appId keys (ui w1) id2 true) w1).
  destruct (logUserActivity_world appId keys (ui w1) id2 true w1)
    as (_ & _ & _ & _ & _ & Hm2 & Hact2 & _).
  cbn zeta in *. fold w2 in Hm2, Hact2. rewrite G1 in Hm2, Hact2. cbn [negb andb] in Hm2, Hact2.
  exists w1, w2, (resolve (server_time w1) (activity_payload (ui w1))).
  split_and!; try done.
  - unfold step. by rewrite En.
  - unfold step. cbn [enabled handler]. by rewrite Hshown1, Hbtn1, Hid2.
  - rewrite Hact2. apply lookup_insert_eq.
  - rewrite resolve_lookup.
    destruct (activity_payload_lookup (ui w1)) as (-> & _). by rewrite Hm1.
Qed.

(** ** A post and the feed query *)

Lemma doc_compare_opp f d1 d2 :
  doc_compare f d2 d1 = CompOpp (doc_compare f d1 d2).
Proof.
  unfold doc_compare.
  destruct (key_compare_lawful (order_key f d1)) as (_ & An & _). apply An.
Qed.

Lemma feed_nonempty appId (c : Collection) d :
  c !! d.1 = Some d.2 → is_Some (d.2 !! "timestamp") →
  ∃ x, head (run_query (feed_query appId) c) = Some x ∧
       c !! x.1 = Some x.2 ∧ is_Some (x.2 !! "timestamp") ∧
       doc_order "timestamp" Desc x d.
Proof.
  intros Hc Hk. rewrite feed_query_run.
  set (L := order_docs "timestamp" Desc (map_to_list c)).
  assert (d ∈ L) as HL by (by apply (order_docs_elem "timestamp" Desc)).
  pose proof (order_docs_sorted "timestamp" Desc (map_to_list c)) as Hs. fold L in Hs.
  assert (∀ x, x ∈ L → c !! x.1 = Some x.2 ∧ is_Some (x.2 !! "timestamp")) as HLc
    by (intros x; apply (order_docs_elem "timestamp" Desc)).
  destruct L as [|x L']; [by apply elem_of_nil in HL|].
  exists x. cbn [take head]. destruct (HLc x) as [Hxc Hxk]; [by left|].
  split_and!; try done.
  apply elem_of_cons in HL as [->|HL].
  - destruct (doc_order_total "timestamp" Desc x x); done.
  - apply StronglySorted_inv in Hs as [_ Hall].
    rewrite Forall_forall in Hall. by apply Hall.
Qed.

Lemma feed_head appId (c : Collection) d :
  c !! d.1 = Some d.2 →
  is_Some (d.2 !! "timestamp") →
  (∀ d', c !! d'.1 = Some d'.2 → is_Some (d'.2 !! "timestamp") → d'.1 ≠ d.1 →
         doc_compare "timestamp" d' d = Lt) →
  head (run_query (feed_query appId) c) = Some d.
Proof.
  intros Hc Hk Hlt.
  destruct (feed_nonempty appId c d Hc Hk) as (x & -> & Hxc & Hxk & Ho). f_equal.
  destruct (decide (x.1 = d.1)) as [Heq|Hne].
  { rewrite Heq, Hc in Hxc. destruct x, d. cbn in *. by simplify_eq. }
  exfalso. cbn in Ho. rewrite doc_compare_opp, (Hlt x Hxc Hxk Hne) in Ho. by apply Ho.
Qed.

Lemma feed_not_head appId (c : Collection) d d' :
  c !! d.1 = Some d.2 → is_Some (d.2 !! "timestamp") →
  c !! d'.1 = Some d'.2 → is_Some (d'.2 !! "timestamp") →
  doc_compare "timestamp" d d' = Lt →
  ∃ x, head (run_query (feed_query appId) c) = Some x ∧ x.1 ≠ d.1.
Proof.
  intros Hc Hk Hc' Hk' Hlt.
  destruct (feed_nonempty appId c d' Hc' Hk') as (x & -> & Hxc & Hxk & Ho).
  exists x. split; [done|]. intros Heq.
  assert (x = d) as ->.
  { rewrite Heq, Hc in Hxc. destruct x, d. cbn in *. by simplify_eq. }
  cbn in Ho. rewrite doc_compare_opp, Hlt in Ho. by apply Ho.
Qed.

(** A record stamped at [now] against the other values a timestamp field
    can hold. *)
Lemma stamped_compare now (d d' : string * DocData) v :
  d.2 !! "timestamp" = Some (VTimestamp now) → d'.2 !! "timestamp" = Some v →
  (stamped_before now v = true → doc_compare "timestamp" d' d = Lt) ∧
  (above_timestamps v = true → doc_compare "timestamp" d d' = Lt).
Proof.
  intros H H'. unfold doc_compare, key_compare, order_key. cbn [fst snd].
  rewrite H, H'. split.
  - destruct v; try done. cbn. intros Ht%Z.ltb_lt.
    by apply Z.compare_lt_iff in Ht as ->.
  - by destruct v.
Qed.

(** X9.  Where a post that succeeds lands in the feed.  When the
    timestamp field of every record already in the collection is absent,
    holds a time before the server's clock, or holds null, a boolean or a
    number, the feed query run after the write returns the new record
    first, with the server's time as its timestamp.  When some record's
    timestamp field holds text, an array or a map, the query does not
    return the new record first: such a record stays ahead of every
    post. *)
Theorem posted_record_tops_feed appId keys cap autoId w :
  logUserActivity_guard keys cap = false →
  activities w !! autoId = None →
  let w' := exec (logUserActivity appId keys cap autoId true) w in
  let stored := resolve (server_time w) (activity_payload cap) in
  let top := head (run_query (feed_query appId) (activities w')) in
  activities w' = <[autoId := stored]> (activities w) ∧
  stored !! "timestamp" = Some (VTimestamp (server_time w)) ∧
  ((∀ i d v, activities w !! i = Some d → d !! "timestamp" = Some v →
             stamped_before (server_time w) v = true) →
   top = Some (autoId, stored)) ∧
  (∀ i d v, activities w !! i = Some d → d !! "timestamp" = Some v →
            above_timestamps v = true →
            ∃ x, top = Some x ∧ x.1 ≠ autoId).
Proof.
  intros G Hfresh w' stored top. subst top.
  destruct (logUserActivity_world appId keys cap autoId true w)
    as (_ & _ & _ & _ & _ & _ & Ha & _).
  cbn zeta in Ha. rewrite G in Ha. cbn [negb andb] in Ha. fold w' stored in Ha.
  assert (stored !! "timestamp" = Some (VTimestamp (server_time w))) as Hts.
  { subst stored. rewrite resolve_lookup.
    by destruct (activity_payload_lookup cap) as (_ & -> & _). }
  assert (activities w' !! autoId = Some stored) as Hnew
    by (rewrite Ha; apply lookup_insert_eq).
  split_and!; [done..| |].
  - intros Hold. apply feed_head; cbn [fst snd]; [done|by rewrite Hts|].
    intros [i d] Hd [v Hv] Hne. cbn [fst snd] in Hd, Hv, Hne.
    rewrite Ha, lookup_insert_ne in Hd by done.
    apply (stamped_compare (server_time w) (autoId, stored) (i, d) v); [done..|].
    by eapply Hold.
  - intros i d v Hd Hv Hab.
    assert (i ≠ autoId) as Hne by (intros ->; congruence).
    apply (feed_not_head appId (activities w') (autoId, stored) (i, d));
      cbn [fst snd]; [done|by rewrite Hts| |by rewrite Hv|].
    + by rewrite Ha, lookup_insert_ne.
    + by apply (stamped_compare (server_time w) (autoId, stored) (i, d) v).
Qed.

(** ** Invariants of the event loop *)

Lemma auto_ids_no_seed l :
  (∀ p i d, SetDoc p i d ∈ l → is_auto_id i = true) → seed_writes l = 0.
Proof.
  unfold seed_writes. induction l as [|e l IH]; [done|]. intros H. cbn.
  destruct e; cbn; try (apply IH; intros ????; eapply H; by right).
  rewrite (auto_id_not_seed id) by (eapply H; by left).
  apply IH. intros ????. eapply H. by right.
Qed.

(** X10.  Once the collection holds a record it is never seeded: along
    any run that starts on a non-empty collection no write to the seed
    document is made, and the collection stays non-empty and never
    shrinks. *)
Theorem nonempty_collection_never_seeded appId token keys f acts w w' :
  run appId token keys f acts w = Some w' →
  activities w ≠ ∅ →
  activities w' ≠ ∅ ∧
  seed_writes (trace w') = seed_writes (trace w) ∧
  (size (activities w) ≤ size (activities w'))%nat.
Proof.
  revert w. induction acts as [|a acts IH]; intros w; cbn [run].
  { by intros [= <-]. }
  destruct (step appId token keys f a w) as [w1|] eqn:Hs; [|done].
  intros Hrun Hne.
  destruct (step_summary _ _ _ _ _ _ _ Hs) as (l & Ht & _ & Hall & Ha & _).
  assert (activities w1 ≠ ∅ ∧ (size (activities w) ≤ size (activities w1))%nat)
    as [Hne1 Hsz].
  { destruct Ha as [->|(p & i & d & _ & ->)]; [done|]. split.
    - apply insert_non_empty.
    - rewrite map_size_insert. case_match; unfold id; lia. }
  destruct (IH w1 Hrun Hne1) as (? & Hsw & ?).
  split_and!; [done| |lia].
  rewrite Hsw, Ht, seed_writes_app, (auto_ids_no_seed l); [lia|].
  intros p i d Hin.
  destruct (Hall p i d Hin) as (_ & [(_ & _ & ? & _)|(ok & _ & _ & ? & _)]); done.
Qed.

Lemma sign_in_calls_app l k :
  sign_in_calls (l ++ k) = sign_in_calls l ++ sign_in_calls k.
Proof. apply List.filter_app. Qed.

Lemma feedEffect_exec appId keys cap ok1 ok2 w :
  exec (feedEffect appId keys cap ok1 ok2) w =
    if Js.is_null (db keys) || negb (isAuthReady cap) then w
    else set_feed_listening true
           (add_event (OnSnapshot (feed_query appId))
              (after_logInitialActivity appId ok1 ok2 w)).
Proof.
  unfold exec. destruct keys as [|k].
  { by rewrite feedEffect_skip by by left. }
  destruct (isAuthReady cap) eqn:Hr.
  - by rewrite feedEffect_run.
  - by rewrite feedEffect_skip by by right.
Qed.

(** The feed effect touches no state cell and makes no sign-in call. *)
Lemma feedEffect_frame appId keys cap ok1 ok2 w :
  ui (exec (feedEffect appId keys cap ok1 ok2) w) = ui w ∧
  sign_in_calls (trace (exec (feedEffect appId keys cap ok1 ok2) w))
  = sign_in_calls (trace w) ∧
  auth_listening (exec (feedEffect appId keys cap ok1 ok2) w) = auth_listening w.
Proof.
  rewrite feedEffect_exec. case_match; [done|].
  unfold after_logInitialActivity.
  destruct ok1; cbn [negb]; [case_bool_decide; [destruct ok2|]|];
    cbn; rewrite ?sign_in_calls_app; cbn; by rewrite ?app_nil_r.
Qed.

Lemma authEffect_frame keys w :
  let w' := exec (authEffect keys) w in
  (loading (ui w) = false → loading (ui w') = false) ∧
  isAuthReady (ui w') = isAuthReady (ui w) ∧
  userId (ui w') = userId (ui w) ∧ isAdmin (ui w') = isAdmin (ui w) ∧
  sign_in_calls (trace w') = sign_in_calls (trace w).
Proof.
  unfold authEffect. destruct (auth keys); run_handler;
    rewrite sign_in_calls_app; cbn; by rewrite app_nil_r.
Qed.

Lemma effects_exec appId keys cap ok1 ok2 w (with_auth : bool) :
  exec ((if with_auth then authEffect keys else mret tt);;
        feedEffect appId keys cap ok1 ok2;;
        update (set_feed_deps (Some (isAuthReady cap)))) w
  = set_feed_deps (Some (isAuthReady cap))
      (exec (feedEffect appId keys cap ok1 ok2)
         (exec (if with_auth then authEffect keys else mret tt) w)).
Proof.
  rewrite (exec_bind _ _ w tt)
    by (destruct with_auth; [apply authEffect_completion|done]).
  by rewrite (exec_bind _ _ _ tt) by apply feedEffect_completion.
Qed.

Lemma step_frame appId token keys f a w w' :
  step appId token keys f a w = Some w' →
  (loading (ui w) = false → loading (ui w') = false) ∧
  (isAuthReady (ui w) = true → isAuthReady (ui w') = true) ∧
  length (sign_in_calls (trace w'))
  = length (sign_in_calls (trace w)) + signed_out_firings [a] ∧
  ((∃ user ok admins, a = AuthStateChanged user ok admins) ∨
   (userId (ui w') = userId (ui w) ∧ isAdmin (ui w') = isAdmin (ui w))).
Proof.
  unfold step. destruct (enabled a w) eqn:En; [|done]. intros [= <-].
  destruct a as [ok1 ok2|[u|] ok admins|ok1 ok2|docs|value|autoId ok];
    cbn [handler signed_out_firings].
  - rewrite (effects_exec appId keys (ui w) ok1 ok2 w true).
    cbn [ui trace set_feed_deps].
    destruct (feedEffect_frame appId keys (ui w) ok1 ok2 (exec (authEffect keys) w))
      as (-> & -> & _).
    destruct (authEffect_frame keys w) as (? & -> & -> & -> & ->).
    split_and!; [done..|lia|by right].
  - destruct (authStateChanged_user appId token keys u ok admins w)
      as (b & l & Hui & _ & Ht & _).
    pose proof (authStateChanged_signed_in appId token keys u ok admins w) as Hsi.
    unfold emitted in Hsi. cbn zeta in *. rewrite Ht, drop_app_length in Hsi.
    rewrite Ht, sign_in_calls_app, Hsi, app_nil_r, Hui. cbn.
    split_and!; [done..|lia|left; by eexists _, _, _].
  - destruct (authStateChanged_signed_out appId token keys ok admins w)
      as (_ & He & Hui & _).
    destruct (authStateChanged_nobody appId token keys ok admins w)
      as (l & _ & _ & Ht & _).
    cbn zeta in *. unfold emitted in He. rewrite Ht, drop_app_length in He.
    rewrite Ht, sign_in_calls_app, length_app, Hui, He. cbn [loading isAuthReady].
    split_and!; [done..| |left; by eexists _, _, _].
    destruct token as [t|]; [destruct (Js.truthy_string t)|]; by destruct ok.
  - rewrite (exec_bind _ _ w tt) by apply feedEffect_completion.
    rewrite exec_update. cbn [ui trace set_feed_deps].
    destruct (feedEffect_frame appId keys (ui w) ok1 ok2 w) as (-> & -> & _).
    split_and!; [done..|cbn; lia|by right].
  - rewrite snapshotReceived_exec. case_match; run_handler;
      (split_and!; [done..|lia|by right]).
  - run_handler. split_and!; [done..|lia|by right].
  - destruct (logUserActivity_world appId keys (ui w) autoId ok w)
      as (Hu & Hr & Ha & Hl & _ & _ & _ & Ht & _).
    cbn zeta in *. rewrite Hu, Hr, Ha, Hl, Ht, sign_in_calls_app.
    split_and!; [done..| |by right].
    destruct (negb _); [destruct ok|]; cbn; rewrite ?app_nil_r; lia.
Qed.

(** X11.  The component makes exactly one sign-in call for each time the
    listener fires with no user, and none besides: along any run the
    number of sign-in calls grows by the number of such firings (a failed
    attempt is not repeated, a signed-in user triggers none). *)
Theorem sign_in_calls_match_firings appId token keys f acts w w' :
  run appId token keys f acts w = Some w' →
  length (sign_in_calls (trace w'))
  = length (sign_in_calls (trace w)) + signed_out_firings acts.
Proof.
  revert w. induction acts as [|a acts IH]; intros w; cbn [run].
  { intros [= <-]. cbn. lia. }
  destruct (step appId token keys f a w) as [w1|] eqn:Hs; [|done].
  intros Hrun%IH. destruct (step_frame _ _ _ _ _ _ _ Hs) as (_ & _ & Hn & _).
  rewrite Hrun, Hn. destruct a as [| [u|] | | | |]; cbn; lia.
Qed.

(** X12.  State only moves forward: once loading is over the connecting
    screen never comes back, and once authentication is marked ready it
    stays so.  And only the auth listener sets the user: along a run
    without a firing of the listener, [userId] and [isAdmin] are what they
    were. *)
Theorem flags_only_move_forward appId token keys f acts w w' :
  run appId token keys f acts w = Some w' →
  (loading (ui w) = false →
     loading (ui w') = false ∧ render appId (ui w') ≠ Normal Connecting) ∧
  (isAuthReady (ui w) = true → isAuthReady (ui w') = true) ∧
  (no_auth_event acts →
     userId (ui w') = userId (ui w) ∧ isAdmin (ui w') = isAdmin (ui w)).
Proof.
  revert w. induction acts as [|a acts IH]; intros w; cbn [run].
  { intros [= <-]. split_and!; try done. intros Hl. split; [done|].
    unfold render. rewrite Hl. destruct (isAdmin (ui w)); [|done].
    by destruct (render_rows _). }
  destruct (step appId token keys f a w) as [w1|] eqn:Hs; [|done].
  intros (Hl & Hr & Hu)%IH.
  destruct (step_frame _ _ _ _ _ _ _ Hs) as (Hl1 & Hr1 & _ & Hu1).
  split_and!; [tauto..|].
  intros Hno. destruct Hu1 as [(user & ok & admins & ->)|[<- <-]].
  - exfalso. eapply Hno. by left.
  - apply Hu. intros user ok admins Hin. eapply Hno. by right.
Qed.

(** ** Without a configuration *)

Lemma step_unconfigured appId token f a w w' :
  step appId token 0 f a w = Some w' →
  unconfigured w →
  unconfigured w' ∧ activities w' = activities w ∧
  globalActivities (ui w') = globalActivities (ui w) ∧
  ∃ l, trace w' = trace w ++ l ∧ forallb is_console l = true.
Proof.
  unfold step, unconfigured. destruct (enabled a w) eqn:En; [|done].
  intros [= <-] (Hal & Hfl & Hr & Hu & Hadm).
  destruct a as [ok1 ok2|user ok admins|ok1 ok2|docs|value|autoId ok];
    cbn [handler enabled] in *.
  - rewrite (effects_exec appId 0 (ui w) ok1 ok2 w true), feedEffect_exec.
    cbn [db app Js.is_null orb]. unfold authEffect. cbn [auth app]. run_handler.
    split_and!; try done. by eexists.
  - congruence.
  - rewrite (exec_bind _ _ w tt) by apply feedEffect_completion.
    rewrite exec_update, feedEffect_exec. cbn [db app Js.is_null orb].
    cbn. split_and!; try done. exists []. by rewrite app_nil_r.
  - congruence.
  - run_handler. split_and!; try done. exists []. by rewrite app_nil_r.
  - rewrite logUserActivity_skip by done. run_handler.
    split_and!; try done. exists []. by rewrite app_nil_r.
Qed.

(** X13.  With an empty configuration there is no backend: whatever
    happens after the component is created, it makes no call at all (the
    trace holds console lines only), registers no listener, never marks
    authentication ready, has no user and no admin, shows an empty list,
    and leaves the collection alone; a click on the button does
    nothing. *)
Theorem unconfigured_app_stays_offline appId token f acts c now w' :
  run appId token 0 f acts (initial_world c now) = Some w' →
  forallb is_console (trace w') = true ∧
  unconfigured w' ∧
  globalActivities (ui w') = [] ∧
  activities w' = c.
Proof.
  assert (∀ acts w w',
            run appId token 0 f acts w = Some w' → unconfigured w →
            unconfigured w' ∧ activities w' = activities w ∧
            globalActivities (ui w') = globalActivities (ui w) ∧
            ∃ l, trace w' = trace w ++ l ∧ forallb is_console l = true) as Hrun.
  { clear. induction acts as [|a acts IH]; intros w w'; cbn [run].
    - intros [= <-] ?. split_and!; try done. exists []. by rewrite app_nil_r.
    - destruct (step appId token 0 f a w) as [w1|] eqn:Hs; [|done].
      intros Hr Hq.
      destruct (step_unconfigured _ _ _ _ _ _ Hs Hq) as (Hq1 & Ha1 & Hg1 & l1 & Ht1 & Hl1).
      destruct (IH _ _ Hr Hq1) as (Hq2 & Ha2 & Hg2 & l2 & Ht2 & Hl2).
      split_and!; [done|congruence..|].
      exists (l1 ++ l2). split; [by rewrite Ht2, Ht1, app_assoc|].
      by rewrite forallb_app, Hl1, Hl2. }
  intros Hr. destruct (Hrun _ _ _ Hr) as (Hq & Ha & Hg & l & Ht & Hl); [done|].
  cbn in Ha, Hg, Ht. by rewrite Ht.
Qed.

(** ** Starting up *)

Lemma authStateChanged_user_verdict appId token keys u ok admins w :
  keys ≠ 0 → uid u ≠ "" →
  isAdmin (ui (exec (authStateChanged appId token keys (Some u) ok admins) w))
  = admin_verdict admins (uid u).
Proof.
  intros Hk Hu. unfold authStateChanged. rewrite checkAdminStatus_body by done.
  destruct admins as [|[data|]]; [by run_handler| |by run_handler].
  unfold admin_verdict. run_handler.
  destruct (or_empty_array (data !! "uids")) eqn:E; by run_handler.
Qed.

(** X14.  The start of a session.  With a backend configured, mounting
    registers the auth listener; its first firing, with no user, makes the
    one sign-in call and ends the loading state; the feed effect then runs
    once, seeds the collection if it is empty and subscribes; and the
    firing that brings the user stores the user id and the verdict of the
    admin check.  All four steps are enabled in this order, and one
    sign-in call has been made in all. *)
Theorem session_start appId token keys f u ok admins c now :
  keys ≠ 0 →
  uid u ≠ "" →
  ∃ w',
    run appId token keys f
      [Mount true true; AuthStateChanged None true Failed; FeedEffect true true;
       AuthStateChanged (Some u) ok admins]
      (initial_world c now) = Some w' ∧
    userId (ui w') = Some (uid u) ∧
    isAdmin (ui w') = admin_verdict admins (uid u) ∧
    isAuthReady (ui w') = true ∧ loading (ui w') = false ∧
    auth_listening w' = true ∧ feed_listening w' = true ∧
    length (sign_in_calls (trace w')) = 1 ∧
    activities w' =
      (if bool_decide (c = ∅)
       then {["system-init" := resolve now initialActivity]}
       else c).
Proof.
  intros Hk Hu. destruct keys as [|k]; [done|]. clear Hk.
  set (w0 := initial_world c now).
  (* mount *)
  set (w1 := exec (handler appId token (S k) f (Mount true true) w0) w0).
  assert (step appId token (S k) f (Mount true true) w0 = Some w1) as Hs1 by done.
  assert (ui w1 = initial_state ∧ activities w1 = c ∧ server_time w1 = now ∧
          auth_listening w1 = true ∧ feed_deps w1 = Some false ∧
          sign_in_calls (trace w1) = []) as (Hui1 & Ha1 & Hst1 & Hal1 & Hd1 & Hsi1).
  { subst w1. cbn [handler].
    rewrite (effects_exec appId (S k) (ui w0) true true w0 true), feedEffect_exec.
    cbn [db app Js.is_null orb ui w0 initial_world isAuthReady initial_state negb].
    unfold authEffect. cbn [auth app]. by run_handler. }
  (* first firing *)
  set (w2 := exec (authStateChanged appId token (S k) None true Failed) w1).
  assert (step appId token (S k) f (AuthStateChanged None true Failed) w1 = Some w2) as Hs2.
  { unfold step. cbn [enabled handler]. by rewrite Hal1. }
  destruct (authStateChanged_nobody appId token (S k) true Failed w1)
    as (l2 & Hui2 & Ha2 & Ht2 & _ & Hst2 & Hal2 & _ & Hd2).
  cbn zeta in *. fold w2 in Hui2, Ha2, Ht2, Hst2, Hal2, Hd2.
  destruct (step_frame _ _ _ _ _ _ _ Hs2) as (_ & _ & Hsi2 & _).
  rewrite Hsi1 in Hsi2. cbn in Hsi2.
  (* feed effect *)
  set (w3 := exec (handler appId token (S k) f (FeedEffect true true) w2) w2).
  assert (step appId token (S k) f (FeedEffect true true) w2 = Some w3) as Hs3.
  { unfold step. cbn [enabled]. by rewrite Hd2, Hd1, Hui2. }
  destruct (effects_world appId (S k) (ui w2) true true w2 false)
    as (l3 & Hr3 & Hu3 & Ha3 & _ & _ & _ & _).
  cbn zeta in *.
  change (exec (mret tt;; ?m) w2) with (exec m w2) in *.
  change (exec (feedEffect appId (S k) (ui w2) true true;; _) w2) with w3 in *.
  destruct (step_frame _ _ _ _ _ _ _ Hs3) as (Hl3 & _ & Hsi3 & [(? & ? & ? & ?)|[_ _]]);
    [done|].
  assert (feed_listening w3 = true ∧ auth_listening w3 = true) as [Hfl3 Hal3].
  { subst w3. cbn [handler].
    rewrite (exec_bind _ _ w2 tt) by apply feedEffect_completion.
    rewrite exec_update. cbn [set_feed_deps feed_listening auth_listening].
    destruct (feedEffect_frame appId (S k) (ui w2) true true w2) as (_ & _ & ->).
    rewrite feedEffect_exec, Hui2. cbn. by rewrite Hal2. }
  rewrite Hui2 in Ha3, Hr3, Hl3. cbn [isAuthReady loading db app Js.is_null negb andb] in *.
  rewrite Ha2, Ha1, Hst2, Hst1 in Ha3.
  (* the user arrives *)
  set (w4 := exec (authStateChanged appId token (S k) (Some u) ok admins) w3).
  assert (step appId token (S k) f (AuthStateChanged (Some u) ok admins) w3 = Some w4) as Hs4.
  { unfold step. cbn [enabled handler]. by rewrite Hal3. }
  destruct (authStateChanged_user appId token (S k) u ok admins w3)
    as (b & l4 & Hui4 & Ha4 & _ & _ & _ & Hal4 & Hfl4 & _).
  cbn zeta in *. fold w4 in Hui4, Ha4, Hal4, Hfl4.
  destruct (step_frame _ _ _ _ _ _ _ Hs4) as (_ & _ & Hsi4 & _).
  assert (isAdmin (ui w4) = admin_verdict admins (uid u)) as Hv
    by (by apply authStateChanged_user_verdict).
  exists w4. cbn [run]. rewrite Hs1, Hs2, Hs3, Hs4.
  rewrite Hv, Hui4, Ha4, Hal4, Hfl4, Hal3, Hfl3, Ha3, Hsi4, Hsi3, Hsi2.
  split_and!; try done.
  case_bool_decide as He; [|done]. by rewrite He, insert_empty.
Qed.

(** ** Paths *)

Lemma append_cons c (s t : string) : String c s +:+ t = String c (s +:+ t).
Proof. done. Qed.

Lemma append_assoc (s t r : string) : (s +:+ t) +:+ r = s +:+ t +:+ r.
Proof. induction s as [|c s IH]; [done|]. by rewrite !append_cons, IH. Qed.

Lemma append_empty_r (s : string) : s +:+ "" = s.
Proof. induction s as [|c s IH]; [done|]. by rewrite append_cons, IH. Qed.

Lemma split_slash_nonempty cur s : Js.split_slash cur s ≠ [].
Proof.
  revert cur. induction s as [|c s IH]; intros cur; cbn; [done|].
  destruct (Ascii.eqb c "/"); [done|apply IH].
Qed.

Lemma split_slash_segment cur s rest :
  no_slash s = true →
  Js.split_slash cur (s +:+ "/" +:+ rest) = (cur +:+ s) :: Js.split_slash "" rest.
Proof.
  revert cur. induction s as [|c s IH]; intros cur; cbn [no_slash].
  - intros _. change ("" +:+ "/" +:+ rest) with (String "/" rest).
    cbn [Js.split_slash Ascii.eqb]. by rewrite append_empty_r.
  - intros [Hc Hs]%andb_true_iff. apply negb_true_iff in Hc.
    rewrite append_cons. cbn [Js.split_slash]. rewrite Hc, IH by done.
    by rewrite append_assoc.
Qed.

Lemma split_slash_whole cur s :
  no_slash s = true → Js.split_slash cur s = [cur +:+ s].
Proof.
  revert cur. induction s as [|c s IH]; intros cur; cbn [no_slash].
  - intros _. cbn [Js.split_slash]. by rewrite append_empty_r.
  - intros [Hc Hs]%andb_true_iff. apply negb_true_iff in Hc.
    cbn [Js.split_slash]. rewrite Hc, IH by done. by rewrite append_assoc.
Qed.

Lemma last_segment_suffix (s t : string) :
  no_slash t = true → Js.last_segment (s +:+ "/" +:+ t) = Some t.
Proof.
  intros Ht. unfold Js.last_segment. generalize "" at 1 as cur.
  induction s as [|c s IH]; intros cur.
  - change ("" +:+ "/" +:+ t) with (String "/" t). cbn [Js.split_slash Ascii.eqb].
    cbn. by rewrite split_slash_whole by done.
  - rewrite append_cons. cbn [Js.split_slash].
    destruct (Ascii.eqb c "/"); [|apply IH].
    specialize (IH "").
    destruct (Js.split_slash "" (s +:+ "/" +:+ t)) eqn:E; [|by rewrite last_cons_cons].
    by apply split_slash_nonempty in E.
Qed.

(** X15.  Whatever the application id, the name shown on the admin panel,
    the last segment of the activity collection's path, is
    'app_activities'. *)
Theorem admin_panel_collection_name appId :
  Js.last_segment (ACTIVITIES_COLLECTION_PATH appId) = Some "app_activities".
Proof.
  unfold ACTIVITIES_COLLECTION_PATH.
  change "/public/data/app_activities" with ("/public/data" +:+ "/" +:+ "app_activities").
  rewrite <- !append_assoc. rewrite (append_assoc _ "/" "app_activities").
  by apply last_segment_suffix.
Qed.

(** X16.  For an application id without ['/'], the two paths split into
    the segments ["artifacts"; appId; "public"; ...]: the application id
    is their second segment, so components configured with different ids
    read and write different documents. *)
Theorem paths_are_scoped_by_app_id appId :
  no_slash appId = true →
  Js.split_slash "" (ADMINS_DOC_PATH appId)
  = ["artifacts"; appId; "public"; "settings"; "admins"] ∧
  Js.split_slash "" (ACTIVITIES_COLLECTION_PATH appId)
  = ["artifacts"; appId; "public"; "data"; "app_activities"] ∧
  (∀ appId', no_slash appId' = true →
     (ADMINS_DOC_PATH appId = ADMINS_DOC_PATH appId' → appId = appId') ∧
     (ACTIVITIES_COLLECTION_PATH appId = ACTIVITIES_COLLECTION_PATH appId'
      → appId = appId')).
Proof.
  intros Hid.
  assert (∀ a, no_slash a = true →
            Js.split_slash "" (ADMINS_DOC_PATH a)
            = ["artifacts"; a; "public"; "settings"; "admins"] ∧
            Js.split_slash "" (ACTIVITIES_COLLECTION_PATH a)
            = ["artifacts"; a; "public"; "data"; "app_activities"]) as Hseg.
  { intros a Ha. unfold ADMINS_DOC_PATH, ACTIVITIES_COLLECTION_PATH.
    change "artifacts/" with ("artifacts" +:+ "/" +:+ "").
    change "/public/settings/admins" with ("/" +:+ "public/settings/admins").
    change "/public/data/app_activities" with ("/" +:+ "public/data/app_activities").
    rewrite !append_assoc. change ("" +:+ ?x) with x.
    rewrite !(split_slash_segment "" "artifacts") by done.
    rewrite !(split_slash_segment "" a) by done. done. }
  destruct (Hseg appId Hid) as [Had Hac]. split_and!; [done..|].
  intros appId' Hid'. destruct (Hseg appId' Hid') as [Had' Hac']. split.
  - intros Heq. rewrite Heq, Had' in Had. by simplify_eq.
  - intros Heq. rewrite Heq, Hac' in Hac. by simplify_eq.
Qed.

(** ** Concrete instances of the further properties *)

Lemma checkAdminStatus_uids_map_witness :
  isAdmin (ui (exec (checkAdminStatus "app" 1 (Resolved (Some admins_map_example)) "alice")
                 posting_world)) = false.
Proof.
  apply (checkAdminStatus_uids_map "app" 1 admins_map_example
           [("alice", VBool true)] "alice" posting_world).
  - lia.
  - discriminate.
  - reflexivity.
Defined.

Lemma checkAdminStatus_uids_string_witness :
  isAdmin (ui (exec (checkAdminStatus "app" 1 (Resolved (Some admins_text_example)) "ali")
                 posting_world)) = true.
Proof.
  rewrite (checkAdminStatus_uids_string "app" 1 admins_text_example "alice,bob" "ali"
             posting_world).
  - reflexivity.
  - lia.
  - discriminate.
  - discriminate.
  - reflexivity.
Defined.

Lemma checkAdminStatus_skipped_witness :
  checkAdminStatus "app" 1 (Resolved (Some admins_example)) "" posting_world
  = (Normal tt, posting_world).
Proof. apply checkAdminStatus_skipped. right. reflexivity. Defined.

Lemma run_existing_records_unchanged_witness :
  ∃ w',
    run "app" None 1 clock [Click "AAAAAAAAAAAAAAAAAAAA" true; Change "next"] posting_world
    = Some w' ∧
    activities posting_world ⊆ activities w'.
Proof.
  eexists. split; [reflexivity|].
  apply (run_existing_records_unchanged "app" None 1 clock
           [Click "AAAAAAAAAAAAAAAAAAAA" true; Change "next"] posting_world).
  - reflexivity.
  - split; [reflexivity|]. split; exact I.
Defined.

Lemma snapshot_with_unreadable_timestamp_witness :
  good_snapshot unreadable_snapshot = false ∧
  snapshotReceived clock unreadable_snapshot posting_world
  = (Throw (TypeError "toDate is not a function"), posting_world).
Proof.
  split; [reflexivity|].
  apply (snapshot_with_unreadable_timestamp clock unreadable_snapshot posting_world).
  reflexivity.
Defined.

Lemma written_records_display_witness :
  resolve (server_time posting_world) (activity_payload posting_state) !! "timestamp"
  = Some (VTimestamp 7).
Proof.
  apply (written_records_display "app" None 1 clock
           (Click "AAAAAAAAAAAAAAAAAAAA" true) posting_world
           (exec (logUserActivity "app" 1 posting_state "AAAAAAAAAAAAAAAAAAAA" true)
              posting_world)
           (ACTIVITIES_COLLECTION_PATH "app") "AAAAAAAAAAAAAAAAAAAA"
           (activity_payload posting_state)).
  - reflexivity.
  - vm_compute. apply list_elem_of_here.
Defined.

Lemma click_after_failure_posts_error_text_witness :
  ∃ w1 w2 d,
    step "app" None 1 clock (Click "AAAAAAAAAAAAAAAAAAAA" false) posting_world = Some w1 ∧
    logMessage (ui w1) = "Error logging activity." ∧
    button_disabled (ui w1) = false ∧
    step "app" None 1 clock (Click "BBBBBBBBBBBBBBBBBBBB" true) w1 = Some w2 ∧
    activities w2 !! "BBBBBBBBBBBBBBBBBBBB" = Some d ∧
    d !! "content" = Some (VStr "Error logging activity.") ∧
    logMessage (ui w2) = "".
Proof.
  apply (click_after_failure_posts_error_text "app" None 1 clock posting_world).
  - lia.
  - exists "u1". split; [reflexivity|discriminate].
  - reflexivity.
  - reflexivity.
Defined.

Lemma posted_record_tops_feed_witness :
  head (run_query (feed_query "app")
          (activities (exec (logUserActivity "app" 1 posting_state
                               "AAAAAAAAAAAAAAAAAAAA" true) posting_world)))
  = Some ("AAAAAAAAAAAAAAAAAAAA",
          resolve (server_time posting_world) (activity_payload posting_state)).
Proof.
  destruct (posted_record_tops_feed "app" 1 posting_state "AAAAAAAAAAAAAAAAAAAA"
              posting_world) as (_ & _ & Htop & _).
  - reflexivity.
  - reflexivity.
  - apply Htop. intros i d v Hd Hv.
    change (activities posting_world) with ({["old" := old_record]} : Collection) in Hd.
    apply lookup_singleton_Some in Hd as [_ <-].
    assert (old_record !! "timestamp" = Some (VTimestamp 3)) as E by reflexivity.
    rewrite E in Hv. injection Hv as <-. reflexivity.
Defined.

Lemma nonempty_collection_never_seeded_witness :
  ∃ w',
    run "app" None 1 clock [Click "AAAAAAAAAAAAAAAAAAAA" true] posting_world = Some w' ∧
    seed_writes (trace w') = seed_writes (trace posting_world).
Proof.
  eexists. split; [reflexivity|].
  apply (nonempty_collection_never_seeded "app" None 1 clock
           [Click "AAAAAAAAAAAAAAAAAAAA" true] posting_world).
  - reflexivity.
  - apply insert_non_empty.
Defined.

Lemma sign_in_calls_match_firings_witness :
  ∃ w',
    run "app" None 1 clock [Mount true true; AuthStateChanged None false Failed]
      (initial_world ∅ 0) = Some w' ∧
    length (sign_in_calls (trace w')) = 1.
Proof.
  eexists. split; [reflexivity|].
  apply (sign_in_calls_match_firings "app" None 1 clock
           [Mount true true; AuthStateChanged None false Failed] (initial_world ∅ 0)).
  reflexivity.
Defined.

Lemma flags_only_move_forward_witness :
  ∃ w',
    run "app" None 1 clock [Change "x"; Click "AAAAAAAAAAAAAAAAAAAA" false] posting_world
    = Some w' ∧
    loading (ui w') = false.
Proof.
  eexists. split; [reflexivity|].
  apply (flags_only_move_forward "app" None 1 clock
           [Change "x"; Click "AAAAAAAAAAAAAAAAAAAA" false] posting_world).
  - reflexivity.
  - reflexivity.
Defined.

Lemma unconfigured_app_stays_offline_witness :
  ∃ w',
    run "app" None 0 clock
      [Mount true true; Change "hi"; Click "AAAAAAAAAAAAAAAAAAAA" true]
      (initial_world ∅ 0) = Some w' ∧
    activities w' = ∅.
Proof.
  eexists. split; [reflexivity|].
  apply (unconfigured_app_stays_offline "app" None clock
           [Mount true true; Change "hi"; Click "AAAAAAAAAAAAAAAAAAAA" true] ∅ 0).
  reflexivity.
Defined.

Lemma session_start_witness :
  ∃ w',
    run "app" (Some "tok") 1 clock
      [Mount true true; AuthStateChanged None true Failed; FeedEffect true true;
       AuthStateChanged (Some {| uid := "alice" |}) true (Resolved (Some admins_example))]
      (initial_world ∅ 0) = Some w' ∧
    userId (ui w') = Some "alice" ∧
    isAdmin (ui w') = true.
Proof.
  destruct (session_start "app" (Some "tok") 1 clock {| uid := "alice" |} true
              (Resolved (Some admins_example)) ∅ 0) as (w' & Hrun & Hu & Hadm & _).
  - lia.
  - discriminate.
  - exists w'. split; [exact Hrun|]. split; [exact Hu|]. exact Hadm.
Defined.

Lemma paths_are_scoped_by_app_id_witness :
  Js.split_slash "" (ADMINS_DOC_PATH "app")
  = ["artifacts"; "app"; "public"; "settings"; "admins"].
Proof. apply (paths_are_scoped_by_app_id "app"). reflexivity. Defined.
